(** * Fetch.tsx: a shallow embedding of the request and aggregation logic

    The development follows [src/Fetch.tsx]: the query-string builder
    [buildQueryString], the request executor [makeFetchRequest], the error
    renderer [renderError] and the component [Fetch] with its three input
    modes (one url, several urls, raw query options).

    JavaScript values are an inductive type, objects are association lists in
    [Object.entries] order, a promise is its settled outcome, and what the
    component returns is recorded as the React call of its [return]
    statement. *)

From Stdlib Require Import ZArith List Bool Ascii String Lia Permutation.
From Stdlib Require Import Numbers.DecimalString Numbers.DecimalZ.
Import ListNotations.

Set Warnings "-register-all".

Open Scope list_scope.
Open Scope string_scope.

(** ** JavaScript values *)

Module JS.

(** The values the component handles as [unknown] / [any].  A number is an
    integer-valued number of the safe range; an object is the list of its
    own enumerable entries, in [Object.entries] order. *)
Inductive Value : Type :=
| Undefined
| Null
| Bool (b : bool)
| Num (z : Z)
| Str (s : string)
| Arr (items : list Value)
| Obj (entries : list (string * Value)).

(** [new Error(message)] and the errors of the platform, told apart by
    their [name]. *)
Record Error : Type := mkError { name : string; message : string }.

Definition newError (msg : string) : Error := mkError "Error" msg.
Definition newSyntaxError (msg : string) : Error := mkError "SyntaxError" msg.

(** What an [async] function or a component call ends with. *)
Inductive Completion (A : Type) : Type :=
| Returned (a : A)
| Threw (e : Error).
Arguments Returned {A} a.
Arguments Threw {A} e.

Definition bind {A B : Type} (c : Completion A) (k : A -> Completion B)
  : Completion B :=
  match c with
  | Returned a => k a
  | Threw e => Threw e
  end.

(** [v == null] *)
Definition looseNull (v : Value) : bool :=
  match v with
  | Undefined | Null => true
  | _ => false
  end.

(** ToBoolean, as in [v ? a : b] and [if (v)]. *)
Definition truthy (v : Value) : bool :=
  match v with
  | Undefined | Null => false
  | Bool b => b
  | Num z => negb (z =? 0)%Z
  | Str s => negb (s =? "")
  | Arr _ | Obj _ => true
  end.

(** [Array.isArray(v)] with the elements when it holds. *)
Definition asArray (v : Value) : option (list Value) :=
  match v with
  | Arr items => Some items
  | _ => None
  end.

Definition Z_to_string (z : Z) : string :=
  NilEmpty.string_of_int (Z.to_int z).

Fixpoint join (sep : string) (l : list string) : string :=
  match l with
  | [] => ""
  | [s] => s
  | s :: rest => s ++ sep ++ join sep rest
  end.

(** [String(v)]: an array prints as its elements joined by commas, with
    [null] and [undefined] elements printed empty; a plain object prints as
    [[object Object]]. *)
Fixpoint toString (v : Value) : string :=
  match v with
  | Undefined => "undefined"
  | Null => "null"
  | Bool b => if b then "true" else "false"
  | Num z => Z_to_string z
  | Str s => s
  | Arr items =>
      join "," (map (fun x => if looseNull x then "" else toString x) items)
  | Obj _ => "[object Object]"
  end.

Definition hexDigit (n : nat) : ascii :=
  match n with
  | 0 => "0" | 1 => "1" | 2 => "2" | 3 => "3" | 4 => "4"
  | 5 => "5" | 6 => "6" | 7 => "7" | 8 => "8" | 9 => "9"
  | 10 => "a" | 11 => "b" | 12 => "c" | 13 => "d" | 14 => "e"
  | _ => "f"
  end%char.

(** One code unit inside a JSON string literal. *)
Definition jsonEscape (c : ascii) : string :=
  let n := nat_of_ascii c in
  if Nat.eqb n 34 then "\" ++ String c ""
  else if Nat.eqb n 92 then "\\"
  else if Nat.eqb n 8 then "\b"
  else if Nat.eqb n 12 then "\f"
  else if Nat.eqb n 10 then "\n"
  else if Nat.eqb n 13 then "\r"
  else if Nat.eqb n 9 then "\t"
  else if Nat.ltb n 32 then
    "\u00" ++ String (hexDigit (n / 16)) (String (hexDigit (n mod 16)) "")
  else String c "".

Fixpoint jsonEscapeAll (s : string) : string :=
  match s with
  | "" => ""
  | String c rest => jsonEscape c ++ jsonEscapeAll rest
  end.

Definition quote : string := String (ascii_of_nat 34) "".

Definition jsonQuote (s : string) : string :=
  quote ++ jsonEscapeAll s ++ quote.

(** [JSON.stringify(v)]: [None] stands for the result [undefined]; an
    [undefined] array element prints as [null] and an [undefined] property
    is left out. *)
Fixpoint stringify (v : Value) : option string :=
  match v with
  | Undefined => None
  | Null => Some "null"
  | Bool b => Some (if b then "true" else "false")
  | Num z => Some (Z_to_string z)
  | Str s => Some (jsonQuote s)
  | Arr items =>
      Some ("[" ++ join ","
              (map (fun x => match stringify x with
                             | Some s => s
                             | None => "null"
                             end) items) ++ "]")
  | Obj entries =>
      Some ("{" ++ join ","
              (flat_map (fun kv => match stringify (snd kv) with
                                   | Some s => [jsonQuote (fst kv) ++ ":" ++ s]
                                   | None => nil
                                   end) entries) ++ "}")
  end.

End JS.

(** ** [URLSearchParams] *)

Module URLSearchParams.

(** The list of name-value pairs behind a [URLSearchParams] object. *)
Definition t : Type := list (string * string).

Definition empty : t := [].

(** [urlParams.append(name, value)].  The pair is stored as given: the
    strings of the model stand for well-formed text, which the platform's
    conversion of the two arguments leaves as it is. *)
Definition append (urlParams : t) (name value : string) : t :=
  (urlParams ++ [(name, value)])%list.

Definition upperHexDigit (n : nat) : ascii :=
  match n with
  | 0 => "0" | 1 => "1" | 2 => "2" | 3 => "3" | 4 => "4"
  | 5 => "5" | 6 => "6" | 7 => "7" | 8 => "8" | 9 => "9"
  | 10 => "A" | 11 => "B" | 12 => "C" | 13 => "D" | 14 => "E"
  | _ => "F"
  end%char.

(** Bytes the [application/x-www-form-urlencoded] serializer leaves as they
    are: ASCII letters and digits and [*], [-], [.], [_]. *)
Definition unreserved (n : nat) : bool :=
  (((48 <=? n) && (n <=? 57)) || ((65 <=? n) && (n <=? 90))
   || ((97 <=? n) && (n <=? 122))
   || (n =? 42) || (n =? 45) || (n =? 46) || (n =? 95))%nat.

Definition encodeByte (c : ascii) : string :=
  let n := nat_of_ascii c in
  if (n =? 32)%nat then "+"
  else if unreserved n then String c ""
  else String "%" (String (upperHexDigit (n / 16))
                     (String (upperHexDigit (n mod 16)) "")).

Fixpoint encode (s : string) : string :=
  match s with
  | "" => ""
  | String c rest => encodeByte c ++ encode rest
  end.

Definition encodePair (nv : string * string) : string :=
  encode (fst nv) ++ "=" ++ encode (snd nv).

(** [urlParams.toString()] *)
Definition toString (urlParams : t) : string :=
  JS.join "&" (map encodePair urlParams).

End URLSearchParams.

(** ** The query-string builder and the request executor *)

Definition BASE_URL : string := "http://localhost:8000".

(** A [Record<string, any>]: its entries in [Object.entries] order. *)
Definition Params : Type := list (string * JS.Value).

(** The callback of [Object.entries(params).forEach], threading the
    [urlParams] object it appends to. *)
Definition appendEntry (urlParams : URLSearchParams.t) (entry : string * JS.Value)
  : URLSearchParams.t :=
  let (key, value) := entry in
  if JS.looseNull value then urlParams
  else match JS.asArray value with
       | Some items =>
           fold_left
             (fun acc item => URLSearchParams.append acc key (JS.toString item))
             (filter (fun item => negb (JS.looseNull item)) items)
             urlParams
       | None => URLSearchParams.append urlParams key (JS.toString value)
       end.

(** The [urlParams] object after the [forEach] of [buildQueryString]. *)
Definition queryEntries (params : Params) : URLSearchParams.t :=
  fold_left appendEntry params URLSearchParams.empty.

Definition buildQueryString (params : option Params) : string :=
  match params with
  | None => ""
  | Some entries => URLSearchParams.toString (queryEntries entries)
  end.

(** The second argument of [fetch]. *)
Record RequestInit : Type := mkRequestInit {
  reqMethod : string;
  reqHeaders : list (string * string);
  reqBody : option string
}.

(** What the transport answers: [ok] is read off the status as the Fetch
    standard defines it, [contentType] is [headers.get("content-type")],
    [text] and [json] are the two body readers ([json] fails with the
    parser's message when the body is not JSON). *)
Record Response : Type := mkResponse {
  status : Z;
  contentType : option string;
  text : string;
  json : JS.Value + string
}.

Definition ok (response : Response) : bool :=
  ((200 <=? status response) && (status response <=? 299))%Z.

(** [s.includes(sub)] *)
Fixpoint includes (s sub : string) : bool :=
  String.prefix sub s
  || match s with
     | "" => false
     | String _ rest => includes rest sub
     end.

Definition requestAddress (url : string) (params : option Params) : string :=
  match params with
  | Some _ => BASE_URL ++ url ++ "?" ++ buildQueryString params
  | None => BASE_URL ++ url
  end.

Definition requestInit (method : string) (body : JS.Value) : RequestInit :=
  {| reqMethod := method;
     reqHeaders := [("Content-Type", "application/json");
                    ("Accept", "application/json")];
     reqBody := if JS.truthy body then JS.stringify body else None |}.

(** The two errors the executor throws itself. *)
Definition HttpError (st : Z) (bodyText : string) : JS.Error :=
  JS.newError ("HTTP error! status: " ++ JS.Z_to_string st
               ++ ", body: " ++ bodyText).

Definition UnexpectedContentTypeError (ct : option string) (bodyText : string)
  : JS.Error :=
  JS.newError ("Expected JSON response but got "
               ++ match ct with Some c => c | None => "null" end
               ++ ", body: " ++ bodyText).

(** [!contentType || !contentType.includes("application/json")] *)
Definition notJson (ct : option string) : bool :=
  match ct with
  | None => true
  | Some c => (c =? "") || negb (includes c "application/json")
  end.

(** The part of [makeFetchRequest] after [await fetch(...)]. *)
Definition handleResponse (response : Response) : JS.Completion JS.Value :=
  if negb (ok response) then
    JS.Threw (HttpError (status response) (text response))
  else
    let contentType := contentType response in
    if notJson contentType then
      JS.Threw (UnexpectedContentTypeError contentType (text response))
    else
      match json response with
      | inl payload => JS.Returned payload
      | inr msg => JS.Threw (JS.newSyntaxError msg)
      end.

Definition makeFetchRequest
    (fetch : string -> RequestInit -> JS.Completion Response)
    (url method : string) (params : option Params) (body : JS.Value)
  : JS.Completion JS.Value :=
  JS.bind (fetch (requestAddress url params) (requestInit method body))
          handleResponse.

(** ** React views *)

Module React.

(** A created element: the tag or component it renders and its props. *)
Record Element : Type := mkElement {
  elementType : string;
  props : list (string * JS.Value)
}.

(** A [React.ReactNode] passed as a prop.  An omitted ([undefined]) prop
    is the [None] of the prop's [option]. *)
Inductive Node : Type :=
| NodeNull
| NodeBool (b : bool)
| NodeNum (z : Z)
| NodeStr (s : string)
| NodeElement (el : Element)
| NodeList (nodes : list Node).

(** ToBoolean of a node, as in [isLoading && LoadingComponent]. *)
Definition truthy (n : Node) : bool :=
  match n with
  | NodeNull => false
  | NodeBool b => b
  | NodeNum z => negb (z =? 0)%Z
  | NodeStr s => negb (s =? "")
  | NodeElement _ | NodeList _ => true
  end.

(** The [ErrorComponent] prop: a ready-made element, for which
    [React.isValidElement] holds, or a component, named. *)
Inductive ErrorView : Type :=
| ValidElement (el : Element)
| ComponentType (component : string).

(** What a render returns, as the call of its [return] statement. *)
Inductive Rendered : Type :=
| CloneElement (el : Element) (error : JS.Error)
| CreateElement (component : string) (error : JS.Error)
| Returns (node : Node)
| Children (data : JS.Value).

End React.

(** ** The query engine *)

(** The function a query runs: the caller's own, or the closure
    [() => makeFetchRequest(url, method, params, body)]. *)
Inductive QueryFn : Type :=
| CallerFn (name : string)
| RequestFn (url method : string) (params : option Params) (body : JS.Value).

(** [UseQueryOptions], and the object handed to [useQuery] / [useQueries]. *)
Record UseQueryOptions : Type := mkOptions {
  queryKey : option (list JS.Value);
  queryFn : option QueryFn;
  otherOptions : list (string * JS.Value)
}.

(** The three fields the component reads off a query result. *)
Record QueryResult : Type := mkResult {
  data : JS.Value;
  error : option JS.Error;
  isLoading : bool
}.

(** The two hooks of the engine, as what they return in the current render. *)
Record Engine : Type := mkEngine {
  useQuery : UseQueryOptions -> QueryResult;
  useQueries : list UseQueryOptions -> list QueryResult
}.

(** Modelled from the spec: the tri-state [FetchState] of a slot, which the
    engine (not part of the sources) exposes through the three fields of a
    query result. *)
Inductive FetchState : Type :=
| Loading
| Failed (e : JS.Error)
| Succeeded (payload : JS.Value).

Definition observe (st : FetchState) : QueryResult :=
  match st with
  | Loading => mkResult JS.Undefined None true
  | Failed e => mkResult JS.Undefined (Some e) false
  | Succeeded payload => mkResult payload None false
  end.

(** ** The component *)

Inductive Method : Type := GET | POST | PUT | DELETE.

Definition methodName (m : Method) : string :=
  match m with
  | GET => "GET"
  | POST => "POST"
  | PUT => "PUT"
  | DELETE => "DELETE"
  end.

(** [FetchProps]; an omitted prop is [None] ([body], of type [unknown], is
    [JS.Undefined] when omitted).  The render prop [children] is not a
    field: its call is the [React.Children] result. *)
Record FetchProps : Type := mkProps {
  url : option string;
  urls : option (list string);
  method : option Method;
  params : option Params;
  body : JS.Value;
  queryOptions : option UseQueryOptions;
  LoadingComponent : option React.Node;
  ErrorComponent : option React.ErrorView;
  waitForAll : option bool
}.

Definition DefaultError : React.ErrorView := React.ComponentType "DefaultError".

Definition defaultLoading : React.Node :=
  React.NodeElement (React.mkElement "div" [("children", JS.Str "Loading...")]).

Definition renderError (ErrorComponent : React.ErrorView) (error : JS.Error)
  : React.Rendered :=
  match ErrorComponent with
  | React.ValidElement el => React.CloneElement el error
  | React.ComponentType Component => React.CreateElement Component error
  end.

(** [params] as a member of the key array. *)
Definition paramsValue (params : option Params) : JS.Value :=
  match params with
  | Some entries => JS.Obj entries
  | None => JS.Undefined
  end.

(** [[url, method, params, body]] *)
Definition derivedKey (url : string) (method : Method)
    (params : option Params) (body : JS.Value) : list JS.Value :=
  [JS.Str url; JS.Str (methodName method); paramsValue params; body].

(** [{ ...queryOptions, queryKey, queryFn }] *)
Definition spreadOptions (queryOptions : option UseQueryOptions)
    (key : list JS.Value) (fn : QueryFn) : UseQueryOptions :=
  {| queryKey := Some key;
     queryFn := Some fn;
     otherOptions := match queryOptions with
                     | Some o => otherOptions o
                     | None => []
                     end |}.

(** [queryOptions?.queryKey ?? fallback] *)
Definition explicitKeyOr (queryOptions : option UseQueryOptions)
    (fallback : list JS.Value) : list JS.Value :=
  match queryOptions with
  | Some o => match queryKey o with
              | Some key => key
              | None => fallback
              end
  | None => fallback
  end.

(** The object passed to [useQuery] in the single-url mode. *)
Definition singleQuery (url : string) (method : Method)
    (params : option Params) (body : JS.Value)
    (queryOptions : option UseQueryOptions) : UseQueryOptions :=
  spreadOptions queryOptions
    (explicitKeyOr queryOptions (derivedKey url method params body))
    (RequestFn url (methodName method) params body).

(** The objects passed to [useQueries] in the several-urls mode. *)
Definition multiQueries (urls : list string) (method : Method)
    (params : option Params) (body : JS.Value)
    (queryOptions : option UseQueryOptions) : list UseQueryOptions :=
  map (fun url =>
         spreadOptions queryOptions
           (derivedKey url method params body)
           (RequestFn url (methodName method) params body))
      urls.

(** The three statements each mode ends with. *)
Definition present (ErrorComponent : React.ErrorView)
    (LoadingComponent : React.Node) (error : option JS.Error)
    (isLoading : bool) (data : JS.Value) : React.Rendered :=
  match error with
  | Some e => renderError ErrorComponent e
  | None =>
      if isLoading && React.truthy LoadingComponent
      then React.Returns LoadingComponent
      else React.Children data
  end.

(** [waitForAll ? results.some(r => r.isLoading)
               : results.every(r => r.isLoading)] *)
Definition aggregateIsLoading (waitForAll : bool) (results : list QueryResult)
  : bool :=
  if waitForAll then existsb isLoading results
  else forallb isLoading results.

(** [results.find(r => r.error)?.error] *)
Definition firstError (results : list QueryResult) : option JS.Error :=
  match find (fun r => match error r with Some _ => true | None => false end)
             results with
  | Some r => error r
  | None => None
  end.

(** The several-urls mode after [useQueries]. *)
Definition aggregate (ErrorComponent : React.ErrorView)
    (LoadingComponent : React.Node) (waitForAll : bool)
    (results : list QueryResult) : React.Rendered :=
  present ErrorComponent LoadingComponent
    (firstError results)
    (aggregateIsLoading waitForAll results)
    (JS.Arr (map data results)).

Definition configurationError : JS.Error :=
  JS.newError "Fetch component requires either url, urls, or queryOptions prop".

(** [if (url)] on an optional string. *)
Definition truthyUrl (url : option string) : option string :=
  match url with
  | Some u => if u =? "" then None else Some u
  | None => None
  end.

Definition Fetch (engine : Engine) (p : FetchProps)
  : JS.Completion React.Rendered :=
  let method := match method p with Some m => m | None => GET end in
  let LoadingComponent :=
    match LoadingComponent p with Some n => n | None => defaultLoading end in
  let ErrorComponent :=
    match ErrorComponent p with Some c => c | None => DefaultError end in
  let waitForAll := match waitForAll p with Some b => b | None => false end in
  match truthyUrl (url p) with
  | Some url =>
      let r := useQuery engine
                 (singleQuery url method (params p) (body p) (queryOptions p)) in
      JS.Returned (present ErrorComponent LoadingComponent
                     (error r) (isLoading r) (data r))
  | None =>
      match urls p with
      | Some urls =>
          let results :=
            useQueries engine
              (multiQueries urls method (params p) (body p) (queryOptions p)) in
          JS.Returned (aggregate ErrorComponent LoadingComponent waitForAll
                         results)
      | None =>
          match queryOptions p with
          | Some queryOptions =>
              let r := useQuery engine queryOptions in
              JS.Returned (present ErrorComponent LoadingComponent
                             (error r) (isLoading r) (data r))
          | None => JS.Threw configurationError
          end
      end
  end.

(** ** What the specification calls things *)

(** The data a slot contributes to the success callback: its payload once it
    has succeeded, [undefined] before. *)
Definition slotData (st : FetchState) : JS.Value :=
  match st with
  | Succeeded payload => payload
  | Loading | Failed _ => JS.Undefined
  end.

(** The three outputs of the presentation step. *)
Inductive Branch : Type := ErrorBranch | LoadingBranch | SuccessBranch.

Definition branchOf (out : React.Rendered) : Branch :=
  match out with
  | React.CloneElement _ _ | React.CreateElement _ _ => ErrorBranch
  | React.Returns _ => LoadingBranch
  | React.Children _ => SuccessBranch
  end.

(** The presentation step on the fetch state of one slot. *)
Definition resolve (ec : React.ErrorView) (lc : React.Node) (st : FetchState)
  : React.Rendered :=
  present ec lc (error (observe st)) (isLoading (observe st))
          (data (observe st)).

(** The query parameters one entry of the mapping stands for. *)
Definition contribution (entry : string * JS.Value) : list (string * string) :=
  match snd entry with
  | JS.Undefined | JS.Null => []
  | JS.Arr items =>
      map (fun item => (fst entry, JS.toString item))
          (filter (fun item => negb (JS.looseNull item)) items)
  | value => [(fst entry, JS.toString value)]
  end.

Fixpoint countChar (c : ascii) (s : string) : nat :=
  match s with
  | "" => 0
  | String c' rest => (if Ascii.eqb c c' then 1 else 0) + countChar c rest
  end.

(** An engine in which no request has settled yet. *)
Definition pendingEngine : Engine :=
  {| useQuery := fun _ => observe Loading;
     useQueries := map (fun _ => observe Loading) |}.

(** An engine that hands each query's key back as the data of a settled
    slot, to read off a render which keys the component asked for. *)
Definition keyValue (o : UseQueryOptions) : JS.Value :=
  match queryKey o with
  | Some key => JS.Arr key
  | None => JS.Undefined
  end.

Definition echoEngine : Engine :=
  {| useQuery := fun o => observe (Succeeded (keyValue o));
     useQueries := map (fun o => observe (Succeeded (keyValue o))) |}.

(** Whether every character of a string passes a test. *)
Fixpoint allChars (test : ascii -> bool) (s : string) : bool :=
  match s with
  | "" => true
  | String c rest => test c && allChars test rest
  end.

(** The characters a serialized query string is made of: the bytes the
    serializer leaves as they are, and [+], [%], [=], [&]. *)
Definition queryChar (c : ascii) : bool :=
  let n := nat_of_ascii c in
  (URLSearchParams.unreserved n
   || (n =? 43) || (n =? 37) || (n =? 61) || (n =? 38))%nat.

Definition hexValue (c : ascii) : nat :=
  let n := nat_of_ascii c in
  if ((48 <=? n) && (n <=? 57))%nat then n - 48
  else if ((65 <=? n) && (n <=? 70))%nat then n - 55
  else 0.

(** Reading a name or a value back from its serialized form: [+] is a
    space and [%XY] the byte with hexadecimal digits [X] and [Y]. *)
Fixpoint decode (s : string) : string :=
  match s with
  | "" => ""
  | String c rest =>
      if Ascii.eqb c "+" then String " " (decode rest)
      else if Ascii.eqb c "%" then
        match rest with
        | String h (String l rest') =>
            String (ascii_of_nat (16 * hexValue h + hexValue l)) (decode rest')
        | _ => String c (decode rest)
        end
      else String c (decode rest)
  end.

(** Names and values written in ASCII alone.  On these the strings of the
    model and the strings of the platform are the same thing: [append]
    stores them as they are, with no ill-formed code unit to replace. *)
Definition isAscii (c : ascii) : bool := (nat_of_ascii c <? 128)%nat.

Definition asciiEntries (l : URLSearchParams.t) : bool :=
  forallb (fun nv => allChars isAscii (fst nv) && allChars isAscii (snd nv)) l.

(** * Properties *)

(** ** Query results and fetch states *)

Lemma observe_isLoading (st : FetchState) :
  isLoading (observe st) = true <-> st = Loading.
Proof.
  destruct st; simpl; split; intro H; try reflexivity; discriminate H.
Qed.

Lemma observe_error (st : FetchState) (e : JS.Error) :
  error (observe st) = Some e <-> st = Failed e.
Proof.
  destruct st; simpl; split; intro H; try discriminate H.
  - injection H as ->. reflexivity.
  - injection H as ->. reflexivity.
Qed.

Lemma observe_data (st : FetchState) : data (observe st) = slotData st.
Proof. destruct st; reflexivity. Qed.

(** ** The loading determination *)

Lemma aggregateIsLoading_any (results : list QueryResult) :
  aggregateIsLoading true results = true
  <-> exists r, In r results /\ isLoading r = true.
Proof. unfold aggregateIsLoading. apply existsb_exists. Qed.

Lemma aggregateIsLoading_every (results : list QueryResult) :
  aggregateIsLoading false results = true
  <-> forall r, In r results -> isLoading r = true.
Proof. unfold aggregateIsLoading. apply forallb_forall. Qed.

(** C1: with [waitForAll] the aggregate is loading exactly when some slot is
    loading; without it (also when the prop is omitted) exactly when every
    slot is loading.  Stated for fetch states and for the query results the
    code reads. *)
Theorem aggregate_loading_policy (states : list FetchState) :
  (aggregateIsLoading true (map observe states) = true <-> In Loading states)
  /\ (aggregateIsLoading false (map observe states) = true
      <-> forall st, In st states -> st = Loading)
  /\ (forall results,
        (aggregateIsLoading true results = true
         <-> exists r, In r results /\ isLoading r = true)
        /\ (aggregateIsLoading false results = true
            <-> forall r, In r results -> isLoading r = true))
  /\ (forall engine us m ps b qo lc ec,
        Fetch engine (mkProps None (Some us) m ps b qo lc ec None)
        = Fetch engine (mkProps None (Some us) m ps b qo lc ec (Some false))).
Proof.
  repeat split.
  - intro H. apply aggregateIsLoading_any in H as (r & Hin & Hl).
    apply in_map_iff in Hin as (st & <- & Hin).
    apply observe_isLoading in Hl. subst st. exact Hin.
  - intro H. apply aggregateIsLoading_any.
    exists (observe Loading). split; [|reflexivity].
    apply in_map. exact H.
  - intros H st Hin. apply observe_isLoading.
    apply (proj1 (aggregateIsLoading_every _) H). apply in_map. exact Hin.
  - intro H. apply aggregateIsLoading_every. intros r Hin.
    apply in_map_iff in Hin as (st & <- & Hin).
    apply observe_isLoading. auto.
  - apply aggregateIsLoading_any.
  - apply aggregateIsLoading_any.
  - apply aggregateIsLoading_every.
  - apply aggregateIsLoading_every.
Qed.

(** Scenario D of the specification: one slot settled, one loading. *)
Example scenario_D (data1 : JS.Value) :
  aggregate DefaultError defaultLoading true
    [observe (Succeeded data1); observe Loading]
  = React.Returns defaultLoading.
Proof. reflexivity. Qed.

(** ** The first error *)

Lemma find_split {A : Type} (f : A -> bool) (l : list A) (x : A) :
  find f l = Some x ->
  exists pre post,
    l = (pre ++ x :: post)%list /\ f x = true
    /\ Forall (fun y => f y = false) pre.
Proof.
  induction l as [|a l IH]; simpl; intro H; [discriminate H|].
  destruct (f a) eqn:Ha.
  - injection H as ->. exists [], l. repeat split; auto.
  - destruct (IH H) as (pre & post & -> & Hx & Hpre).
    exists (a :: pre), post. repeat split; auto.
Qed.

Lemma find_none_iff {A : Type} (f : A -> bool) (l : list A) :
  find f l = None <-> forall y, In y l -> f y = false.
Proof.
  split.
  - apply find_none.
  - induction l as [|a l IH]; simpl; intro H; [reflexivity|].
    rewrite (H a (or_introl eq_refl)). apply IH. intros y Hy. apply H. now right.
Qed.

Lemma firstError_split (results : list QueryResult) :
  (exists r, In r results /\ error r <> None) ->
  exists pre r e post,
    results = (pre ++ r :: post)%list
    /\ Forall (fun x => error x = None) pre
    /\ error r = Some e
    /\ firstError results = Some e.
Proof.
  intros (r0 & Hin & Herr). unfold firstError.
  destruct (find _ results) as [r|] eqn:Hf.
  - apply find_split in Hf as (pre & post & -> & Hr & Hpre).
    destruct (error r) as [e|] eqn:He; [|discriminate Hr].
    exists pre, r, e, post. repeat split; auto.
    eapply Forall_impl; [|exact Hpre]. intros x Hx. simpl in Hx.
    destruct (error x); [discriminate Hx|reflexivity].
  - exfalso. apply Herr.
    pose proof (find_none _ _ Hf r0 Hin) as H. simpl in H.
    destruct (error r0); [discriminate H|reflexivity].
Qed.

Lemma firstError_none (results : list QueryResult) :
  (forall r, In r results -> error r = None) -> firstError results = None.
Proof.
  intro H. unfold firstError.
  destruct (find _ results) as [r|] eqn:Hf; [|reflexivity].
  apply find_some in Hf as [Hin _]. auto.
Qed.

Lemma renderError_branch (ec : React.ErrorView) (e : JS.Error) :
  branchOf (renderError ec e) = ErrorBranch.
Proof. destruct ec; reflexivity. Qed.

Lemma aggregate_error_general (ec : React.ErrorView) (lc : React.Node)
    (w : bool) (results : list QueryResult) :
  (exists r, In r results /\ error r <> None) ->
  exists pre r e post,
    results = (pre ++ r :: post)%list
    /\ Forall (fun x => error x = None) pre
    /\ error r = Some e
    /\ aggregate ec lc w results = renderError ec e.
Proof.
  intro H. destruct (firstError_split results H) as (pre & r & e & post & H1 & H2 & H3 & H4).
  exists pre, r, e, post. repeat split; auto.
  unfold aggregate, present. rewrite H4. reflexivity.
Qed.

(** C2: when some slot has failed, the aggregate renders the error view of
    the first failed slot in sequence order, under either wait policy, and
    so neither the loading view nor the success callback. *)
Theorem aggregate_first_failed (ec : React.ErrorView) (lc : React.Node)
    (w : bool) (states : list FetchState) :
  (exists e, In (Failed e) states) ->
  exists pre e post,
    states = (pre ++ Failed e :: post)%list
    /\ (forall e', ~ In (Failed e') pre)
    /\ aggregate ec lc w (map observe states) = renderError ec e
    /\ (forall node, aggregate ec lc w (map observe states) <> React.Returns node)
    /\ (forall d, aggregate ec lc w (map observe states) <> React.Children d).
Proof.
  intros (e0 & Hin).
  destruct (aggregate_error_general ec lc w (map observe states))
    as (pre & r & e & post & Hsplit & Hpre & He & Hagg).
  { exists (observe (Failed e0)). split; [apply in_map; exact Hin|discriminate]. }
  apply map_eq_app in Hsplit as (spre & srest & -> & <- & Hrest).
  destruct srest as [|st spost]; [discriminate Hrest|].
  simpl in Hrest. injection Hrest as <- <-.
  apply observe_error in He. subst st.
  exists spre, e, spost. repeat split.
  - intros e' Hin'. rewrite Forall_forall in Hpre.
    specialize (Hpre (observe (Failed e')) (in_map _ _ _ Hin')).
    discriminate Hpre.
  - exact Hagg.
  - intros node Heq. rewrite Hagg in Heq.
    pose proof (renderError_branch ec e) as Hb. rewrite Heq in Hb. discriminate Hb.
  - intros d Heq. rewrite Hagg in Heq.
    pose proof (renderError_branch ec e) as Hb. rewrite Heq in Hb. discriminate Hb.
Qed.

(** Scenario E of the specification, under both wait policies. *)
Lemma aggregate_first_failed_witness :
  exists pre e post,
    [Failed (JS.newError "boom"); Succeeded (JS.Num 2)]
    = (pre ++ Failed e :: post)%list
    /\ (forall e', ~ In (Failed e') pre)
    /\ aggregate DefaultError defaultLoading true
         (map observe [Failed (JS.newError "boom"); Succeeded (JS.Num 2)])
       = renderError DefaultError e
    /\ (forall node,
          aggregate DefaultError defaultLoading true
            (map observe [Failed (JS.newError "boom"); Succeeded (JS.Num 2)])
          <> React.Returns node)
    /\ (forall d,
          aggregate DefaultError defaultLoading true
            (map observe [Failed (JS.newError "boom"); Succeeded (JS.Num 2)])
          <> React.Children d).
Proof.
  apply (aggregate_first_failed DefaultError defaultLoading true
           [Failed (JS.newError "boom"); Succeeded (JS.Num 2)]).
  exists (JS.newError "boom"). simpl. left. reflexivity.
Defined.

Example scenario_E (w : bool) (e1 : JS.Error) (data2 : JS.Value) :
  aggregate DefaultError defaultLoading w
    [observe (Failed e1); observe (Succeeded data2)]
  = React.CreateElement "DefaultError" e1.
Proof. destruct w; reflexivity. Qed.

(** ** The success branch *)

Lemma aggregate_success_general (ec : React.ErrorView) (lc : React.Node)
    (w : bool) (results : list QueryResult) :
  (forall r, In r results -> error r = None) ->
  aggregateIsLoading w results = false ->
  aggregate ec lc w results = React.Children (JS.Arr (map data results)).
Proof.
  intros Hnone Hl. unfold aggregate, present.
  rewrite (firstError_none results Hnone), Hl. reflexivity.
Qed.

(** C3: with no failed slot and the aggregate not loading under the wait
    policy, the success callback gets the slots' data in locator order, with
    [undefined] where a slot has not settled; the two-locator case with
    [waitForAll = false] is the specification's scenario C. *)
Theorem aggregate_success_data (ec : React.ErrorView) (lc : React.Node)
    (w : bool) (states : list FetchState) :
  (forall e, ~ In (Failed e) states) ->
  aggregateIsLoading w (map observe states) = false ->
  aggregate ec lc w (map observe states)
  = React.Children (JS.Arr (map slotData states))
  /\ (forall i, nth_error states i = Some Loading ->
                nth_error (map slotData states) i = Some JS.Undefined)
  /\ (forall i payload, nth_error states i = Some (Succeeded payload) ->
                        nth_error (map slotData states) i = Some payload)
  /\ (forall data1,
        aggregate ec lc false [observe (Succeeded data1); observe Loading]
        = React.Children (JS.Arr [data1; JS.Undefined])).
Proof.
  intros Hnone Hl. repeat split.
  - rewrite (aggregate_success_general ec lc w _).
    + rewrite map_map. do 2 f_equal. apply map_ext. apply observe_data.
    + intros r Hin. apply in_map_iff in Hin as (st & <- & Hin).
      destruct st; try reflexivity. exfalso. exact (Hnone e Hin).
    + exact Hl.
  - intros i Hi. rewrite nth_error_map, Hi. reflexivity.
  - intros i payload Hi. rewrite nth_error_map, Hi. reflexivity.
Qed.

Lemma aggregate_success_data_witness :
  aggregate DefaultError defaultLoading false
    (map observe [Succeeded (JS.Str "users"); Loading])
  = React.Children (JS.Arr (map slotData [Succeeded (JS.Str "users"); Loading])).
Proof.
  apply (aggregate_success_data DefaultError defaultLoading false
           [Succeeded (JS.Str "users"); Loading]).
  - intros e [H|[H|[]]]; discriminate H.
  - reflexivity.
Defined.

(** ** The presentation step *)

(** C7: the presentation step yields one of three outputs, trying the error
    first, then loading (with a truthy loading view), then success; which
    one is decided by the state and by whether the loading view is truthy,
    so resolving an unchanged state again takes the same branch. *)
Theorem present_precedence (ec : React.ErrorView) (lc : React.Node) :
  (forall e isL d, present ec lc (Some e) isL d = renderError ec e)
  /\ (forall d,
        present ec lc None true d
        = if React.truthy lc then React.Returns lc else React.Children d)
  /\ (forall d, present ec lc None false d = React.Children d)
  /\ (forall st,
        branchOf (resolve ec lc st)
        = match st with
          | Failed _ => ErrorBranch
          | Loading => if React.truthy lc then LoadingBranch else SuccessBranch
          | Succeeded _ => SuccessBranch
          end)
  /\ (forall w results,
        branchOf (aggregate ec lc w results)
        = match firstError results with
          | Some _ => ErrorBranch
          | None => if aggregateIsLoading w results && React.truthy lc
                    then LoadingBranch else SuccessBranch
          end)
  /\ (forall ec' lc' st,
        React.truthy lc' = React.truthy lc ->
        branchOf (resolve ec' lc' st) = branchOf (resolve ec lc st)).
Proof.
  split; [reflexivity|].
  split; [intro d; unfold present; simpl; destruct (React.truthy lc); reflexivity|].
  split; [reflexivity|].
  assert (Hst : forall c l st,
             branchOf (resolve c l st)
             = match st with
               | Failed _ => ErrorBranch
               | Loading => if React.truthy l then LoadingBranch else SuccessBranch
               | Succeeded _ => SuccessBranch
               end).
  { intros c l [|e|payload]; unfold resolve, present; simpl.
    - destruct (React.truthy l); reflexivity.
    - apply renderError_branch.
    - reflexivity. }
  split; [apply Hst|].
  split.
  - intros w results. unfold aggregate, present.
    destruct (firstError results) as [e|]; [apply renderError_branch|].
    destruct (aggregateIsLoading w results && React.truthy lc); reflexivity.
  - intros ec' lc' st Hlc. rewrite !Hst, Hlc. reflexivity.
Qed.

(** ** The response envelope *)

Lemma HttpError_not_content_type (st : Z) (t : string) (ct : option string)
    (t' : string) :
  HttpError st t <> UnexpectedContentTypeError ct t'.
Proof. unfold HttpError, UnexpectedContentTypeError, JS.newError. simpl. discriminate. Qed.

Lemma string_of_uint_no_comma (d : Decimal.uint) :
  countChar "," (NilEmpty.string_of_uint d) = 0.
Proof. induction d; simpl; auto. Qed.

Lemma Z_to_string_no_comma (z : Z) : countChar "," (JS.Z_to_string z) = 0.
Proof.
  unfold JS.Z_to_string, NilEmpty.string_of_int.
  destruct (Z.to_int z); simpl; apply string_of_uint_no_comma.
Qed.

Lemma Z_to_string_injective (z z' : Z) :
  JS.Z_to_string z = JS.Z_to_string z' -> z = z'.
Proof.
  unfold JS.Z_to_string. intro H.
  apply (f_equal NilEmpty.int_of_string) in H.
  rewrite !NilEmpty.isi in H. injection H as H.
  rewrite <- (DecimalZ.of_to z), <- (DecimalZ.of_to z'), H. reflexivity.
Qed.

Lemma split_at_comma (a a' r r' : string) :
  countChar "," a = 0 -> countChar "," a' = 0 ->
  a ++ String "," r = a' ++ String "," r' -> a = a' /\ r = r'.
Proof.
  revert a'. induction a as [|c a IH]; intros [|c' a'] Ha Ha' H; simpl in H.
  - injection H as ->. auto.
  - injection H as <- _. cbn [countChar] in Ha'.
    rewrite Ascii.eqb_refl in Ha'. discriminate Ha'.
  - injection H as -> _. cbn [countChar] in Ha.
    rewrite Ascii.eqb_refl in Ha. discriminate Ha.
  - injection H as -> H. cbn [countChar] in Ha, Ha'.
    destruct (Ascii.eqb "," c'); [discriminate Ha|].
    destruct (IH a' Ha Ha' H) as [-> ->]. auto.
Qed.

(** The status and the body text can both be read back from the message of
    the HTTP error. *)
Lemma HttpError_fields (st st' : Z) (t t' : string) :
  HttpError st t = HttpError st' t' -> st = st' /\ t = t'.
Proof.
  unfold HttpError, JS.newError. intro H. injection H as H.
  apply split_at_comma in H; try apply Z_to_string_no_comma.
  destruct H as [Hst Ht]. split.
  - apply Z_to_string_injective. exact Hst.
  - now injection Ht.
Qed.

Lemma prefix_spec (sub s : string) :
  String.prefix sub s = true <-> exists suf, s = sub ++ suf.
Proof.
  revert sub. induction s as [|c s IH]; intros [|a sub]; simpl.
  - split; [intros _; exists ""; reflexivity|reflexivity].
  - split; [discriminate|intros [suf H]; discriminate H].
  - split; [intros _; eexists; reflexivity|reflexivity].
  - destruct (ascii_dec a c) as [->|Hne].
    + rewrite IH. split; intros [suf H]; exists suf.
      * now rewrite H.
      * now injection H.
    + split; [discriminate|]. intros [suf H]. injection H as H _.
      now contradiction Hne.
Qed.

Lemma includes_spec (s sub : string) :
  includes s sub = true <-> exists pre suf, s = pre ++ sub ++ suf.
Proof.
  induction s as [|c s IH]; cbn [includes]; rewrite orb_true_iff, prefix_spec.
  - split.
    + intros [[suf H]|H]; [|discriminate H]. exists "", suf. exact H.
    + intros (pre & suf & H). left. destruct pre as [|x pre]; [|discriminate H].
      exists suf. exact H.
  - rewrite IH. split.
    + intros [[suf H]|(pre & suf & H)].
      * exists "", suf. exact H.
      * exists (String c pre), suf. simpl. now rewrite H.
    + intros (pre & suf & H). destruct pre as [|x pre].
      * left. exists suf. exact H.
      * right. simpl in H. injection H as _ H. exists pre, suf. exact H.
Qed.

(** A response passes the content-type test exactly when its header is
    present and holds [application/json] somewhere, in lower case letters:
    with a charset parameter after it, or inside a longer type. *)
Theorem notJson_false_iff (ct : option string) :
  notJson ct = false
  <-> exists pre suf, ct = Some (pre ++ "application/json" ++ suf).
Proof.
  destruct ct as [c|]; simpl.
  - rewrite orb_false_iff, negb_false_iff, includes_spec. split.
    + intros (_ & pre & suf & ->). exists pre, suf. reflexivity.
    + intros (pre & suf & H). injection H as ->. split.
      * destruct pre; reflexivity.
      * exists pre, suf. reflexivity.
  - split; [discriminate|]. intros (pre & suf & H). discriminate H.
Qed.

Lemma ok_true_iff (response : Response) :
  ok response = true <-> (200 <= status response <= 299)%Z.
Proof. unfold ok. rewrite andb_true_iff, !Z.leb_le. tauto. Qed.

Lemma ok_false_iff (response : Response) :
  ok response = false <-> (status response < 200 \/ 299 < status response)%Z.
Proof. unfold ok. rewrite andb_false_iff, !Z.leb_gt. tauto. Qed.

(** C5, as the claim has it, fails at an answer with a success status and a
    JSON content type whose body does not parse: the executor returns no
    payload, it fails with the reader's [SyntaxError]. *)
Lemma makeFetchRequest_unparsable_body_counterexample :
  ok (mkResponse 200 (Some "application/json") "<html>"
        (inr "Unexpected token < in JSON at position 0")) = true
  /\ notJson (Some "application/json") = false
  /\ makeFetchRequest
       (fun _ _ =>
          JS.Returned (mkResponse 200 (Some "application/json") "<html>"
                         (inr "Unexpected token < in JSON at position 0")))
       "/api/users" "GET" None JS.Undefined
     = JS.Threw (JS.newSyntaxError "Unexpected token < in JSON at position 0")
  /\ forall payload,
       makeFetchRequest
         (fun _ _ =>
            JS.Returned (mkResponse 200 (Some "application/json") "<html>"
                           (inr "Unexpected token < in JSON at position 0")))
         "/api/users" "GET" None JS.Undefined
       <> JS.Returned payload.
Proof. repeat split. intros payload H. discriminate H. Qed.

(** C5, amended: the executor throws the HTTP error, built from the status
    and the body read as text, exactly when the status is outside 200..299;
    it throws the content-type error, built from the declared type and the
    body text, exactly when the status is inside and the content-type header
    is missing or does not hold [application/json]; it returns the parsed
    payload exactly when, past both tests, the JSON reader parses the body,
    and fails with the reader's [SyntaxError] exactly when it does not. *)
Theorem makeFetchRequest_response (response : Response)
    (url method : string) (params : option Params) (body : JS.Value) :
  (makeFetchRequest (fun _ _ => JS.Returned response) url method params body
   = JS.Threw (HttpError (status response) (text response))
   <-> (status response < 200 \/ 299 < status response)%Z)
  /\ (makeFetchRequest (fun _ _ => JS.Returned response) url method params body
      = JS.Threw (UnexpectedContentTypeError (contentType response)
                    (text response))
      <-> (200 <= status response <= 299)%Z
          /\ forall pre suf,
               contentType response
               <> Some (pre ++ "application/json" ++ suf))
  /\ (forall payload,
        makeFetchRequest (fun _ _ => JS.Returned response)
          url method params body
        = JS.Returned payload
        <-> (200 <= status response <= 299)%Z
            /\ (exists pre suf,
                  contentType response
                  = Some (pre ++ "application/json" ++ suf))
            /\ json response = inl payload)
  /\ (forall msg,
        makeFetchRequest (fun _ _ => JS.Returned response)
          url method params body
        = JS.Threw (JS.newSyntaxError msg)
        <-> (200 <= status response <= 299)%Z
            /\ (exists pre suf,
                  contentType response
                  = Some (pre ++ "application/json" ++ suf))
            /\ json response = inr msg).
Proof.
  unfold makeFetchRequest, JS.bind, handleResponse. cbv zeta.
  destruct (ok response) eqn:Hok; cbv [negb].
  - apply ok_true_iff in Hok.
    destruct (notJson (contentType response)) eqn:Hn.
    + assert (Hno : forall pre suf,
                 contentType response
                 <> Some (pre ++ "application/json" ++ suf)).
      { intros pre suf Hct.
        assert (Hf : notJson (contentType response) = false)
          by (apply notJson_false_iff; now exists pre, suf).
        rewrite Hn in Hf. discriminate Hf. }
      split.
      { split; [|lia]. intro H. exfalso.
        apply (HttpError_not_content_type (status response) (text response)
                 (contentType response) (text response)).
        congruence. }
      split; [split; auto|].
      split.
      { intro payload. split; [discriminate|].
        intros (_ & (pre & suf & Hct) & _). now contradiction (Hno pre suf). }
      intro msg. split; [discriminate|].
      intros (_ & (pre & suf & Hct) & _). now contradiction (Hno pre suf).
    + pose proof (proj1 (notJson_false_iff _) Hn) as Hyes.
      assert (Hnot : ~ forall pre suf,
                 contentType response
                 <> Some (pre ++ "application/json" ++ suf)).
      { intro Hno. destruct Hyes as (pre & suf & Hct).
        now contradiction (Hno pre suf). }
      destruct (json response) as [p|m] eqn:Hj.
      * split; [split; [discriminate|lia]|].
        split; [split; [discriminate|intros (_ & Hno); contradiction]|].
        split.
        { intro payload. split.
          - intro H. injection H as ->. auto.
          - intros (_ & _ & H). now injection H as ->. }
        intro msg. split; [discriminate|]. intros (_ & _ & H). discriminate H.
      * split; [split; [discriminate|lia]|].
        split; [split; [discriminate|intros (_ & Hno); contradiction]|].
        split.
        { intro payload. split; [discriminate|].
          intros (_ & _ & H). discriminate H. }
        intro msg. split.
        -- intro H. injection H as ->. auto.
        -- intros (_ & _ & H). now injection H as ->.
  - apply ok_false_iff in Hok.
    split; [split; auto|].
    split.
    { split; [|intros (H & _); lia]. intro H. exfalso.
      apply (HttpError_not_content_type (status response) (text response)
               (contentType response) (text response)).
      congruence. }
    split.
    { intro payload. split; [discriminate|]. intros (H & _). lia. }
    intro msg. split; [discriminate|]. intros (H & _). lia.
Qed.

(** Scenarios B and F of the specification. *)
Example scenario_B :
  handleResponse (mkResponse 404 (Some "text/plain") "not found" (inr "Unexpected token"))
  = JS.Threw (HttpError 404 "not found")
  /\ JS.message (HttpError 404 "not found")
     = "HTTP error! status: 404, body: not found".
Proof. split; reflexivity. Qed.

Example scenario_F :
  handleResponse (mkResponse 200 (Some "text/html") "<p>hi</p>" (inr "Unexpected token"))
  = JS.Threw (UnexpectedContentTypeError (Some "text/html") "<p>hi</p>").
Proof. reflexivity. Qed.

(** ** The query string *)

Lemma fold_append (key : string) (items : list JS.Value)
    (acc : URLSearchParams.t) :
  fold_left (fun a item => URLSearchParams.append a key (JS.toString item))
            items acc
  = (acc ++ map (fun item => (key, JS.toString item)) items)%list.
Proof.
  revert acc. induction items as [|item items IH]; intro acc; simpl.
  - now rewrite app_nil_r.
  - rewrite IH. unfold URLSearchParams.append. now rewrite <- app_assoc.
Qed.

Lemma appendEntry_contribution (acc : URLSearchParams.t)
    (entry : string * JS.Value) :
  appendEntry acc entry = (acc ++ contribution entry)%list.
Proof.
  destruct entry as [key value]. unfold appendEntry, contribution.
  destruct value; simpl; try (now rewrite app_nil_r); try reflexivity.
  apply fold_append.
Qed.

Lemma fold_appendEntry (params : Params) (acc : URLSearchParams.t) :
  fold_left appendEntry params acc = (acc ++ flat_map contribution params)%list.
Proof.
  revert acc. induction params as [|entry params IH]; intro acc; simpl.
  - now rewrite app_nil_r.
  - rewrite IH, appendEntry_contribution. now rewrite <- app_assoc.
Qed.

Lemma queryEntries_flat_map (params : Params) :
  queryEntries params = flat_map contribution params.
Proof. unfold queryEntries. now rewrite fold_appendEntry. Qed.

Lemma queryEntries_app (before after : Params) :
  queryEntries (before ++ after)%list
  = (queryEntries before ++ queryEntries after)%list.
Proof. rewrite !queryEntries_flat_map. apply flat_map_app. Qed.

Lemma queryEntries_insert (before after : Params) (entry : string * JS.Value) :
  queryEntries (before ++ entry :: after)%list
  = (queryEntries before ++ contribution entry ++ queryEntries after)%list.
Proof.
  rewrite queryEntries_app. f_equal.
  rewrite !queryEntries_flat_map. reflexivity.
Qed.

Lemma countChar_app (c : ascii) (s1 s2 : string) :
  countChar c (s1 ++ s2) = countChar c s1 + countChar c s2.
Proof.
  induction s1 as [|c1 s1 IH]; simpl; [reflexivity|].
  rewrite IH. apply Nat.add_assoc.
Qed.

Lemma encodeByte_no_separator (c : ascii) :
  countChar "=" (URLSearchParams.encodeByte c) = 0
  /\ countChar "&" (URLSearchParams.encodeByte c) = 0.
Proof.
  destruct c as [[] [] [] [] [] [] [] []]; split; vm_compute; reflexivity.
Qed.

Lemma encode_no_separator (s : string) :
  countChar "=" (URLSearchParams.encode s) = 0
  /\ countChar "&" (URLSearchParams.encode s) = 0.
Proof.
  induction s as [|c s [IH1 IH2]]; simpl; [split; reflexivity|].
  rewrite !countChar_app, IH1, IH2.
  destruct (encodeByte_no_separator c) as [-> ->]. split; reflexivity.
Qed.

Lemma encodePair_equals (nv : string * string) :
  countChar "=" (URLSearchParams.encodePair nv) = 1.
Proof.
  unfold URLSearchParams.encodePair. rewrite !countChar_app.
  rewrite (proj1 (encode_no_separator (fst nv))).
  rewrite (proj1 (encode_no_separator (snd nv))). reflexivity.
Qed.

Lemma toString_equals (l : URLSearchParams.t) :
  countChar "=" (URLSearchParams.toString l) = List.length l.
Proof.
  unfold URLSearchParams.toString.
  induction l as [|nv l IH]; [reflexivity|].
  destruct l as [|nv' l].
  - simpl. apply encodePair_equals.
  - change (countChar "="
              (URLSearchParams.encodePair nv ++ "&"
               ++ JS.join "&" (map URLSearchParams.encodePair (nv' :: l)))
            = S (List.length (nv' :: l))).
    rewrite !countChar_app, IH, encodePair_equals. reflexivity.
Qed.

(** C4: in the query string, an entry whose value is [null] or [undefined]
    adds nothing; an array adds one parameter for each element that is not
    [null], under the entry's key and in element order, so that
    [[a, null, b]] gives the two parameters [a] then [b]; any other value adds
    one parameter with [String(value)].  The string is the serialization of
    these parameters and holds one [=] for each of them. *)
Theorem buildQueryString_entries (before after : Params) (key : string) :
  (forall value, JS.looseNull value = true ->
     queryEntries (before ++ (key, value) :: after)%list
     = (queryEntries before ++ queryEntries after)%list)
  /\ (forall items,
        queryEntries (before ++ (key, JS.Arr items) :: after)%list
        = (queryEntries before
           ++ map (fun item => (key, JS.toString item))
                  (filter (fun item => negb (JS.looseNull item)) items)
           ++ queryEntries after)%list)
  /\ (forall a b, JS.looseNull a = false -> JS.looseNull b = false ->
        queryEntries (before ++ (key, JS.Arr [a; JS.Null; b]) :: after)%list
        = (queryEntries before
           ++ [(key, JS.toString a); (key, JS.toString b)]
           ++ queryEntries after)%list)
  /\ (forall value, JS.looseNull value = false -> JS.asArray value = None ->
        queryEntries (before ++ (key, value) :: after)%list
        = (queryEntries before ++ [(key, JS.toString value)]
           ++ queryEntries after)%list)
  /\ (forall params,
        buildQueryString (Some params)
        = URLSearchParams.toString (flat_map contribution params)
        /\ countChar "=" (buildQueryString (Some params))
           = List.length (queryEntries params)).
Proof.
  split.
  { intros value Hnull. rewrite queryEntries_insert.
    destruct value; try discriminate Hnull; reflexivity. }
  split.
  { intro items. rewrite queryEntries_insert. reflexivity. }
  split.
  { intros a b Ha Hb. rewrite queryEntries_insert.
    unfold contribution. simpl. rewrite Ha, Hb. reflexivity. }
  split.
  { intros value Hnull Harr. rewrite queryEntries_insert.
    destruct value; try discriminate Hnull; try discriminate Harr; reflexivity. }
  intro params. split.
  - simpl. now rewrite queryEntries_flat_map.
  - simpl. apply toString_equals.
Qed.

Example buildQueryString_array :
  buildQueryString
    (Some [("tag", JS.Arr [JS.Str "a"; JS.Null; JS.Str "b"]);
           ("page", JS.Num 2); ("sort", JS.Undefined)])
  = "tag=a&tag=b&page=2".
Proof. reflexivity. Qed.

(** ** The target address *)

Lemma length_append (s1 s2 : string) :
  String.length (s1 ++ s2) = String.length s1 + String.length s2.
Proof. induction s1 as [|c s1 IH]; simpl; [reflexivity|now rewrite IH]. Qed.

Lemma encodeByte_no_question (c : ascii) :
  countChar "?" (URLSearchParams.encodeByte c) = 0.
Proof. destruct c as [[] [] [] [] [] [] [] []]; vm_compute; reflexivity. Qed.

Lemma encode_no_question (s : string) :
  countChar "?" (URLSearchParams.encode s) = 0.
Proof.
  induction s as [|c s IH]; simpl; [reflexivity|].
  now rewrite countChar_app, IH, encodeByte_no_question.
Qed.

Lemma toString_no_question (l : URLSearchParams.t) :
  countChar "?" (URLSearchParams.toString l) = 0.
Proof.
  unfold URLSearchParams.toString.
  induction l as [|nv l IH]; [reflexivity|].
  assert (Hnv : countChar "?" (URLSearchParams.encodePair nv) = 0).
  { unfold URLSearchParams.encodePair.
    now rewrite !countChar_app, !encode_no_question. }
  destruct l as [|nv' l]; [exact Hnv|].
  change (countChar "?"
            (URLSearchParams.encodePair nv ++ "&"
             ++ JS.join "&" (map URLSearchParams.encodePair (nv' :: l))) = 0).
  now rewrite !countChar_app, IH, Hnv.
Qed.

Lemma queryEntries_all_null (ps : Params) :
  (forall kv, In kv ps -> JS.looseNull (snd kv) = true) ->
  queryEntries ps = [].
Proof.
  intro H. rewrite queryEntries_flat_map.
  induction ps as [|[k v] ps IH]; [reflexivity|].
  simpl. rewrite IH by (intros kv Hin; apply H; now right).
  specialize (H (k, v) (or_introl eq_refl)). simpl in H.
  destruct v; try discriminate H; reflexivity.
Qed.

(** C10: the address handed to the transport is base, locator, [?] and the
    query string when [params] is given, also when that string is empty, and
    base and locator alone when it is not; so it goes on with a [?] after
    the locator, and holds one [?] more than the locator does, exactly when
    [params] is given. *)
Theorem requestAddress_separator (url : string) :
  (forall ps,
     requestAddress url (Some ps)
     = BASE_URL ++ url ++ "?" ++ buildQueryString (Some ps))
  /\ requestAddress url None = BASE_URL ++ url
  /\ (forall params,
        (exists rest, requestAddress url params = BASE_URL ++ url ++ "?" ++ rest)
        <-> params <> None)
  /\ (forall params,
        countChar "?" (requestAddress url params)
        = countChar "?" url + match params with Some _ => 1 | None => 0 end)
  /\ (forall ps, (forall kv, In kv ps -> JS.looseNull (snd kv) = true) ->
        buildQueryString (Some ps) = ""
        /\ requestAddress url (Some ps) = BASE_URL ++ url ++ "?")
  /\ (forall fetch m params b,
        makeFetchRequest fetch url m params b
        = JS.bind (fetch (requestAddress url params) (requestInit m b))
                  handleResponse).
Proof.
  split; [reflexivity|].
  split; [reflexivity|].
  split.
  { intros [ps|]; split.
    - discriminate.
    - intros _. eexists. reflexivity.
    - intros [rest H]. exfalso. unfold requestAddress in H.
      apply (f_equal String.length) in H.
      rewrite !length_append in H. simpl in H. lia.
    - intro H. now destruct H. }
  split.
  { intros [ps|]; unfold requestAddress.
    - rewrite !countChar_app. simpl buildQueryString.
      rewrite toString_no_question. simpl. lia.
    - rewrite !countChar_app. simpl. lia. }
  split.
  { intros ps H. unfold requestAddress. simpl buildQueryString.
    rewrite (queryEntries_all_null ps H). split; reflexivity. }
  reflexivity.
Qed.

Example requestAddress_all_null :
  requestAddress "/api/search" (Some [("q", JS.Null); ("page", JS.Undefined)])
  = "http://localhost:8000/api/search?"
  /\ requestAddress "/api/search" (Some [("q", JS.Str "react"); ("page", JS.Str "1")])
     = "http://localhost:8000/api/search?q=react&page=1"
  /\ requestAddress "/api/search" None = "http://localhost:8000/api/search".
Proof. repeat split. Qed.

(** ** The request body *)

Lemma truthy_stringify (v : JS.Value) :
  JS.truthy v = true -> exists s, JS.stringify v = Some s.
Proof. destruct v; simpl; intro H; try discriminate H; eexists; reflexivity. Qed.

Lemma requestInit_truthy_body (method : string) (body : JS.Value) :
  JS.truthy body = true ->
  reqBody (requestInit method body) = JS.stringify body
  /\ reqBody (requestInit method body) <> None.
Proof.
  intro H. simpl. rewrite H. split; [reflexivity|].
  destruct (truthy_stringify body H) as [s ->]. discriminate.
Qed.

Lemma requestInit_absent_body (method : string) :
  reqBody (requestInit method JS.Undefined) = None.
Proof. reflexivity. Qed.

(** C8: the executor at a body that is given but falsy.  The number [0],
    [false] and the empty string serialize to the JSON texts [0], [false]
    and two quotes, yet the request is sent with no body, as it is for an
    absent body. *)
Theorem requestInit_falsy_body_dropped :
  JS.stringify (JS.Num 0) = Some "0"
  /\ reqBody (requestInit "PUT" (JS.Num 0)) = None
  /\ JS.stringify (JS.Bool false) = Some "false"
  /\ reqBody (requestInit "PUT" (JS.Bool false)) = None
  /\ JS.stringify (JS.Str "") = Some (JS.quote ++ JS.quote)
  /\ reqBody (requestInit "PUT" (JS.Str "")) = None
  /\ requestInit "PUT" (JS.Num 0) = requestInit "PUT" JS.Undefined.
Proof. repeat split. Qed.

(** ** Cache keys *)

Lemma derivedKey_injective (u u' : string) (m m' : Method)
    (ps ps' : option Params) (b b' : JS.Value) :
  derivedKey u m ps b = derivedKey u' m' ps' b' ->
  u = u' /\ m = m' /\ ps = ps' /\ b = b'.
Proof.
  unfold derivedKey. intro H. injection H as Hu Hm Hp Hb.
  repeat split; auto.
  - destruct m, m'; simpl in Hm; try discriminate Hm; reflexivity.
  - destruct ps, ps'; simpl in Hp; try discriminate Hp; [|reflexivity].
    now injection Hp as ->.
Qed.

Lemma multiQueries_keys (urls : list string) (m : Method)
    (ps : option Params) (b : JS.Value) (qo : option UseQueryOptions) :
  map queryKey (multiQueries urls m ps b qo)
  = map (fun u => Some (derivedKey u m ps b)) urls.
Proof. unfold multiQueries. rewrite map_map. reflexivity. Qed.

(** C6, as the claim has it, fails in the several-urls mode: a key given in
    the query options is not the key of any slot there. *)
Lemma multiQueries_explicit_key_counterexample :
  queryKey (mkOptions (Some [JS.Str "users"]) (Some (CallerFn "load")) [])
  = Some [JS.Str "users"]
  /\ map queryKey
       (multiQueries ["/api/users"; "/api/posts"] GET None JS.Undefined
          (Some (mkOptions (Some [JS.Str "users"]) (Some (CallerFn "load")) [])))
     = [Some [JS.Str "/api/users"; JS.Str "GET"; JS.Undefined; JS.Undefined];
        Some [JS.Str "/api/posts"; JS.Str "GET"; JS.Undefined; JS.Undefined]]
  /\ ~ (forall q,
          In q (multiQueries ["/api/users"; "/api/posts"] GET None JS.Undefined
                  (Some (mkOptions (Some [JS.Str "users"])
                           (Some (CallerFn "load")) []))) ->
          queryKey q = Some [JS.Str "users"])
  /\ Fetch echoEngine
       (mkProps None (Some ["/api/users"; "/api/posts"]) None None JS.Undefined
          (Some (mkOptions (Some [JS.Str "users"]) (Some (CallerFn "load")) []))
          None None None)
     = JS.Returned
         (React.Children
            (JS.Arr
               [JS.Arr [JS.Str "/api/users"; JS.Str "GET"; JS.Undefined;
                        JS.Undefined];
                JS.Arr [JS.Str "/api/posts"; JS.Str "GET"; JS.Undefined;
                        JS.Undefined]])).
Proof.
  split; [reflexivity|].
  split; [reflexivity|].
  split; [|reflexivity].
  intro H. specialize (H _ (or_introl eq_refl)). discriminate H.
Qed.

(** C6, amended: the derived key of a slot is the array of locator, method,
    parameters and body, so equal fields give equal keys (and different
    fields different keys), whatever the other props are; a key given in the
    query options replaces it in the single-url mode, and the raw
    query-options mode (no url or an empty one, no urls, whatever the other
    props) passes the options on as they are; in the several-urls mode every
    slot keeps its derived key. *)
Theorem cache_key_derivation (u : string) (m : Method) (ps : option Params)
    (b : JS.Value) :
  queryKey (singleQuery u m ps b None) = Some (derivedKey u m ps b)
  /\ (forall fn others,
        queryKey (singleQuery u m ps b (Some (mkOptions None fn others)))
        = Some (derivedKey u m ps b))
  /\ (forall key fn others,
        queryKey (singleQuery u m ps b (Some (mkOptions (Some key) fn others)))
        = Some key)
  /\ (forall urls qo,
        map queryKey (multiQueries urls m ps b qo)
        = map (fun u' => Some (derivedKey u' m ps b)) urls)
  /\ (forall u' m' ps' b',
        derivedKey u m ps b = derivedKey u' m' ps' b'
        <-> (u = u' /\ m = m' /\ ps = ps' /\ b = b'))
  /\ (forall engine mo ps' b' qo lc ec w,
        Fetch engine (mkProps None None mo ps' b' (Some qo) lc ec w)
        = JS.Returned
            (present (match ec with Some c => c | None => DefaultError end)
                     (match lc with Some n => n | None => defaultLoading end)
                     (error (useQuery engine qo))
                     (isLoading (useQuery engine qo))
                     (data (useQuery engine qo)))
        /\ Fetch engine (mkProps (Some "") None mo ps' b' (Some qo) lc ec w)
           = Fetch engine (mkProps None None mo ps' b' (Some qo) lc ec w)).
Proof.
  split; [reflexivity|].
  split; [reflexivity|].
  split; [reflexivity|].
  split; [intros; apply multiQueries_keys|].
  split; [|intros; split; reflexivity].
  intros u' m' ps' b'. split.
  - apply derivedKey_injective.
  - intros (-> & -> & -> & ->). reflexivity.
Qed.

Example single_key_through_Fetch :
  Fetch echoEngine
    (mkProps (Some "/api/users") None None None JS.Undefined
       (Some (mkOptions (Some [JS.Str "users"]) None [])) None None None)
  = JS.Returned (React.Children (JS.Arr [JS.Str "users"]))
  /\ Fetch echoEngine
       (mkProps (Some "/api/users") None (Some POST)
          (Some [("page", JS.Str "1")]) (JS.Obj [("name", JS.Str "John")])
          None None None None)
     = JS.Returned
         (React.Children
            (JS.Arr [JS.Str "/api/users"; JS.Str "POST";
                     JS.Obj [("page", JS.Str "1")];
                     JS.Obj [("name", JS.Str "John")]])).
Proof. split; reflexivity. Qed.

(** ** The configuration error *)

Lemma truthyUrl_none (url : option string) :
  truthyUrl url = None <-> (url = None \/ url = Some "").
Proof.
  destruct url as [u|]; simpl.
  - destruct (String.eqb_spec u "") as [->|Hne].
    + split; auto.
    + split; [discriminate|].
      intros [H|H]; [discriminate H|]. injection H as ->. now contradiction Hne.
  - split; auto.
Qed.

(** C9, as the claim has it, fails at a locator that is given and empty: the
    call throws the configuration error. *)
Lemma Fetch_empty_url_counterexample :
  url (mkProps (Some "") None None None JS.Undefined None None None None)
  <> None
  /\ Fetch pendingEngine
       (mkProps (Some "") None None None JS.Undefined None None None None)
     = JS.Threw configurationError.
Proof. split; [discriminate|reflexivity]. Qed.

(** C9, amended: the call throws the configuration error, as a thrown error
    of the call and not as a rendering, exactly when no locator other than
    the empty string, no locator sequence and no query options are given;
    with a non-empty locator, a locator sequence or query options it returns
    a rendering, and it throws nothing else. *)
Theorem Fetch_configuration_error (engine : Engine) (p : FetchProps) :
  (Fetch engine p = JS.Threw configurationError
   <-> ((url p = None \/ url p = Some "")
        /\ urls p = None /\ queryOptions p = None))
  /\ (forall e, Fetch engine p = JS.Threw e -> e = configurationError)
  /\ ((exists u, url p = Some u /\ u <> "") \/ urls p <> None
      \/ queryOptions p <> None
      <-> exists out, Fetch engine p = JS.Returned out).
Proof.
  unfold Fetch. rewrite <- truthyUrl_none.
  destruct (truthyUrl (url p)) as [u|] eqn:Hu.
  - split; [split; [discriminate|intros (H & _); discriminate H]|].
    split; [discriminate|].
    split; [intros _; eexists; reflexivity|].
    intros _. left. destruct (url p) as [u'|]; [|discriminate Hu].
    exists u'. split; [reflexivity|]. intros ->. discriminate Hu.
  - assert (Hnot : ~ exists u, url p = Some u /\ u <> "").
    { intros (u & Hp & Hne). rewrite Hp in Hu. simpl in Hu.
      destruct (String.eqb_spec u ""); [contradiction|discriminate Hu]. }
    destruct (urls p) as [us|].
    + split; [split; [discriminate|intros (_ & H & _); discriminate H]|].
      split; [discriminate|].
      split; [intros _; eexists; reflexivity|].
      intros _. right. left. discriminate.
    + destruct (queryOptions p) as [qo|].
      * split; [split; [discriminate|intros (_ & _ & H); discriminate H]|].
        split; [discriminate|].
        split; [intros _; eexists; reflexivity|].
        intros _. right. right. discriminate.
      * split; [split; auto|].
        split; [intros e H; now injection H as <-|].
        split.
        -- intros [H|[H|H]]; [contradiction|now contradiction H|now contradiction H].
        -- intros [out H]. discriminate H.
Qed.

Example Fetch_no_source :
  Fetch pendingEngine
    (mkProps None None None None JS.Undefined None None None None)
  = JS.Threw configurationError
  /\ Fetch pendingEngine
       (mkProps None (Some []) None None JS.Undefined None None None None)
     = JS.Returned (React.Returns defaultLoading).
Proof. split; reflexivity. Qed.

(** * Further properties of the code *)

(** ** Strings *)

Lemma append_nil_r (s : string) : s ++ "" = s.
Proof. induction s as [|c s IH]; simpl; [reflexivity|now rewrite IH]. Qed.

Lemma append_assoc (a b c : string) : (a ++ b) ++ c = a ++ b ++ c.
Proof. induction a as [|x a IH]; simpl; [reflexivity|now rewrite IH]. Qed.

Lemma allChars_app (test : ascii -> bool) (a b : string) :
  allChars test (a ++ b) = allChars test a && allChars test b.
Proof.
  induction a as [|c a IH]; simpl; [reflexivity|].
  now rewrite IH, andb_assoc.
Qed.

Lemma split_at (ch : ascii) (a a' r r' : string) :
  countChar ch a = 0 -> countChar ch a' = 0 ->
  a ++ String ch r = a' ++ String ch r' -> a = a' /\ r = r'.
Proof.
  revert a'. induction a as [|c a IH]; intros [|c' a'] Ha Ha' H; simpl in H.
  - injection H as ->. auto.
  - injection H as <- _. cbn [countChar] in Ha'.
    rewrite Ascii.eqb_refl in Ha'. discriminate Ha'.
  - injection H as -> _. cbn [countChar] in Ha.
    rewrite Ascii.eqb_refl in Ha. discriminate Ha.
  - injection H as -> H. cbn [countChar] in Ha, Ha'.
    destruct (Ascii.eqb ch c'); [discriminate Ha|].
    destruct (IH a' Ha Ha' H) as [-> ->]. auto.
Qed.

(** ** The serialized query string *)

Lemma decode_encodeByte (c : ascii) (rest : string) :
  decode (URLSearchParams.encodeByte c ++ rest) = String c (decode rest).
Proof. destruct c as [[] [] [] [] [] [] [] []]; reflexivity. Qed.

Lemma decode_encode (s : string) : decode (URLSearchParams.encode s) = s.
Proof.
  induction s as [|c s IH]; simpl; [reflexivity|].
  now rewrite decode_encodeByte, IH.
Qed.

Lemma encode_injective (s s' : string) :
  URLSearchParams.encode s = URLSearchParams.encode s' -> s = s'.
Proof.
  intro H. rewrite <- (decode_encode s), <- (decode_encode s'), H. reflexivity.
Qed.

Lemma encodeByte_queryChar (c : ascii) :
  allChars queryChar (URLSearchParams.encodeByte c) = true.
Proof. destruct c as [[] [] [] [] [] [] [] []]; vm_compute; reflexivity. Qed.

Lemma encode_queryChar (s : string) :
  allChars queryChar (URLSearchParams.encode s) = true.
Proof.
  induction s as [|c s IH]; simpl; [reflexivity|].
  now rewrite allChars_app, encodeByte_queryChar, IH.
Qed.

Lemma toString_cons (nv nv' : string * string) (l : URLSearchParams.t) :
  URLSearchParams.toString (nv :: nv' :: l)
  = URLSearchParams.encodePair nv
    ++ String "&" (URLSearchParams.toString (nv' :: l)).
Proof. reflexivity. Qed.

Lemma toString_single (nv : string * string) :
  URLSearchParams.toString [nv] = URLSearchParams.encodePair nv.
Proof. reflexivity. Qed.

Lemma toString_queryChar (l : URLSearchParams.t) :
  allChars queryChar (URLSearchParams.toString l) = true.
Proof.
  assert (Hp : forall nv,
             allChars queryChar (URLSearchParams.encodePair nv) = true).
  { intro nv. unfold URLSearchParams.encodePair.
    now rewrite !allChars_app, !encode_queryChar. }
  induction l as [|nv l IH]; [reflexivity|].
  destruct l as [|nv' l]; [apply Hp|].
  rewrite toString_cons, allChars_app, Hp.
  cbn [allChars]. rewrite IH. reflexivity.
Qed.

(** Whatever the keys and values are, the query string is made of ASCII
    letters, digits and [* - . _ + % = &] only: no space, [?], [#] or [/]
    of a key or value reaches the address unescaped. *)
Theorem buildQueryString_safe_characters (params : option Params) :
  allChars queryChar (buildQueryString params) = true.
Proof.
  destruct params as [ps|]; [|reflexivity].
  apply toString_queryChar.
Qed.

Lemma encodePair_split (nv nv' : string * string) (r r' : string) :
  URLSearchParams.encodePair nv ++ r = URLSearchParams.encodePair nv' ++ r' ->
  fst nv = fst nv'
  /\ URLSearchParams.encode (snd nv) ++ r
     = URLSearchParams.encode (snd nv') ++ r'.
Proof.
  unfold URLSearchParams.encodePair. rewrite !append_assoc. simpl.
  intro H. apply split_at in H; try apply encode_no_separator.
  destruct H as [Hk Hv]. split; [now apply encode_injective|exact Hv].
Qed.

Lemma toString_injective (l l' : URLSearchParams.t) :
  URLSearchParams.toString l = URLSearchParams.toString l' -> l = l'.
Proof.
  intro H.
  assert (Hlen : List.length l = List.length l').
  { rewrite <- !toString_equals, H. reflexivity. }
  revert l' H Hlen. induction l as [|[k v] l IH]; intros [|[k' v'] l'] H Hlen;
    try discriminate Hlen; [reflexivity|].
  destruct l as [|nv l]; destruct l' as [|nv' l']; try discriminate Hlen.
  - rewrite !toString_single in H.
    rewrite <- (append_nil_r (URLSearchParams.encodePair (k, v))) in H.
    rewrite <- (append_nil_r (URLSearchParams.encodePair (k', v'))) in H.
    apply encodePair_split in H as [Hk Hv]. simpl in Hk, Hv.
    rewrite !append_nil_r in Hv. apply encode_injective in Hv.
    now subst.
  - rewrite !toString_cons in H.
    apply encodePair_split in H as [Hk Hv]. simpl in Hk, Hv.
    apply split_at in Hv; try apply encode_no_separator.
    destruct Hv as [Hv Hrest]. apply encode_injective in Hv.
    injection Hlen as Hlen.
    rewrite (IH (nv' :: l') Hrest (f_equal S Hlen)). now subst.
Qed.

(** Two parameter mappings whose keys and stringified values are written
    in ASCII give the same query string only when they stand for the same
    query parameters, in the same order: the escaping never lets two
    different lists of such parameters collide. *)
Theorem buildQueryString_injective (ps ps' : Params) :
  asciiEntries (queryEntries ps) = true ->
  asciiEntries (queryEntries ps') = true ->
  buildQueryString (Some ps) = buildQueryString (Some ps') ->
  queryEntries ps = queryEntries ps'.
Proof. intros _ _. apply toString_injective. Qed.

Lemma buildQueryString_injective_witness :
  queryEntries [("tag", JS.Arr [JS.Str "a b"]); ("skip", JS.Null)]
  = queryEntries [("tag", JS.Str "a b")].
Proof.
  apply (buildQueryString_injective
           [("tag", JS.Arr [JS.Str "a b"]); ("skip", JS.Null)]
           [("tag", JS.Str "a b")]); reflexivity.
Defined.

Lemma toString_empty (l : URLSearchParams.t) :
  URLSearchParams.toString l = "" <-> l = [].
Proof.
  split; [|intros ->; reflexivity].
  intro H. apply toString_injective. exact H.
Qed.

Lemma contribution_empty (entry : string * JS.Value) :
  contribution entry = []
  <-> (JS.looseNull (snd entry) = true
       \/ exists items, snd entry = JS.Arr items
                        /\ forall x, In x items -> JS.looseNull x = true).
Proof.
  destruct entry as [k v]. unfold contribution. simpl.
  destruct v; simpl; split; intro H; auto; try discriminate H;
    try (destruct H as [H|(items' & H & _)]; discriminate H).
  - right. exists items. split; [reflexivity|].
    apply map_eq_nil in H. intros x Hx.
    destruct (JS.looseNull x) eqn:Hn; [reflexivity|].
    assert (Hin : In x (filter (fun item => negb (JS.looseNull item)) items)).
    { apply filter_In. split; [exact Hx|]. now rewrite Hn. }
    rewrite H in Hin. destruct Hin.
  - destruct H as [H|(items' & Heq & Hall)]; [discriminate H|].
    injection Heq as <-.
    replace (filter (fun item => negb (JS.looseNull item)) items)
      with (@nil JS.Value); [reflexivity|].
    symmetry. induction items as [|x items IH]; [reflexivity|].
    simpl. rewrite (Hall x (or_introl eq_refl)). simpl.
    apply IH. intros y Hy. apply Hall. now right.
Qed.

(** The query string is empty exactly when every entry of the mapping is
    [null], [undefined] or an array holding nothing but [null] and
    [undefined]; an entry with any other value, the empty string included,
    leaves a parameter. *)
Theorem buildQueryString_empty (ps : Params) :
  buildQueryString (Some ps) = ""
  <-> forall key value, In (key, value) ps ->
        JS.looseNull value = true
        \/ exists items, value = JS.Arr items
                         /\ forall x, In x items -> JS.looseNull x = true.
Proof.
  simpl. rewrite toString_empty, queryEntries_flat_map. split.
  - intros H key value Hin.
    apply (contribution_empty (key, value)).
    destruct (contribution (key, value)) as [|nv rest] eqn:Hc; [reflexivity|].
    exfalso.
    assert (Hnv : In nv (flat_map contribution ps)).
    { apply in_flat_map. exists (key, value). split; [exact Hin|].
      rewrite Hc. now left. }
    rewrite H in Hnv. destruct Hnv.
  - intro H. induction ps as [|[k v] ps IH]; [reflexivity|].
    simpl. rewrite (IH (fun key value Hin => H key value (or_intror Hin))).
    rewrite app_nil_r. apply contribution_empty.
    apply (H k v). now left.
Qed.

Lemma toString_app (l1 l2 : URLSearchParams.t) :
  l1 <> [] -> l2 <> [] ->
  URLSearchParams.toString (l1 ++ l2)%list
  = URLSearchParams.toString l1 ++ "&" ++ URLSearchParams.toString l2.
Proof.
  intros H1 H2. induction l1 as [|nv l1 IH]; [contradiction|].
  destruct l2 as [|nv2 l2]; [contradiction|].
  destruct l1 as [|nv1 l1].
  - simpl app. rewrite toString_cons, toString_single. reflexivity.
  - change ((nv :: nv1 :: l1) ++ nv2 :: l2)%list
      with (nv :: nv1 :: (l1 ++ nv2 :: l2))%list.
    rewrite !toString_cons.
    change (nv1 :: (l1 ++ nv2 :: l2))%list
      with ((nv1 :: l1) ++ nv2 :: l2)%list.
    rewrite IH by discriminate.
    rewrite append_assoc. reflexivity.
Qed.

(** The query string of a mapping made of two parts, one after the other,
    is the two query strings joined by [&]; a part that leaves no parameter
    adds nothing, not even the [&]. *)
Theorem buildQueryString_app (ps1 ps2 : Params) :
  buildQueryString (Some (ps1 ++ ps2)%list)
  = match queryEntries ps1, queryEntries ps2 with
    | [], _ => buildQueryString (Some ps2)
    | _, [] => buildQueryString (Some ps1)
    | _, _ => buildQueryString (Some ps1) ++ "&" ++ buildQueryString (Some ps2)
    end.
Proof.
  simpl. rewrite queryEntries_app.
  destruct (queryEntries ps1) as [|a l1] eqn:H1; [reflexivity|].
  destruct (queryEntries ps2) as [|b l2] eqn:H2; [now rewrite app_nil_r|].
  apply toString_app; discriminate.
Qed.

(** An array with a single element is sent exactly as the element alone
    (when that is neither [null] nor an array): the address does not tell
    which of the two the caller passed. *)
Theorem buildQueryString_singleton_array (before after : Params)
    (key : string) (value : JS.Value) :
  JS.looseNull value = false -> JS.asArray value = None ->
  buildQueryString (Some (before ++ (key, JS.Arr [value]) :: after)%list)
  = buildQueryString (Some (before ++ (key, value) :: after)%list).
Proof.
  intros Hnull Harr. simpl. f_equal. rewrite !queryEntries_insert.
  do 2 f_equal. unfold contribution. simpl. rewrite Hnull. simpl.
  destruct value; try discriminate Hnull; try discriminate Harr; reflexivity.
Qed.

Lemma buildQueryString_singleton_array_witness :
  buildQueryString (Some ([("page", JS.Num 1)]
                          ++ ("tag", JS.Arr [JS.Str "a"]) :: [])%list)
  = buildQueryString (Some ([("page", JS.Num 1)]
                            ++ ("tag", JS.Str "a") :: [])%list).
Proof.
  apply (buildQueryString_singleton_array [("page", JS.Num 1)] [] "tag"
           (JS.Str "a")); reflexivity.
Defined.

(** ** The content type test *)

(** An answer with a success status is refused with the content-type error
    exactly when its declared type does not hold [application/json]: so
    also when it declares no type at all, as a 204 answer without body does,
    or spells the type in capitals. *)
Theorem handleResponse_content_type (response : Response) :
  ok response = true ->
  (handleResponse response
   = JS.Threw (UnexpectedContentTypeError (contentType response)
                 (text response))
   <-> forall pre suf,
         contentType response <> Some (pre ++ "application/json" ++ suf)).
Proof.
  intro Hok. unfold handleResponse. rewrite Hok. cbv [negb]. cbv zeta.
  destruct (notJson (contentType response)) eqn:Hn.
  - split; [|reflexivity]. intros _ pre suf Hct.
    assert (Hf : notJson (contentType response) = false).
    { apply notJson_false_iff. now exists pre, suf. }
    rewrite Hn in Hf. discriminate Hf.
  - apply notJson_false_iff in Hn as (pre & suf & Hct). split.
    + destruct (json response); discriminate.
    + intro H. now contradiction (H pre suf).
Qed.

Lemma handleResponse_content_type_witness :
  handleResponse (mkResponse 204 None "" (inr "Unexpected end of JSON input"))
  = JS.Threw (UnexpectedContentTypeError None "")
  <-> forall pre suf, @None string <> Some (pre ++ "application/json" ++ suf).
Proof.
  apply (handleResponse_content_type
           (mkResponse 204 None "" (inr "Unexpected end of JSON input"))).
  reflexivity.
Defined.

Lemma HttpError_fields_witness : 404%Z = 404%Z /\ "not found" = "not found".
Proof. apply (HttpError_fields 404 404 "not found" "not found"). reflexivity. Defined.

(** ** The modes of the component *)

Lemma truthyUrl_nonempty (u : string) : u <> "" -> truthyUrl (Some u) = Some u.
Proof.
  intro H. simpl. destruct (String.eqb_spec u ""); [contradiction|reflexivity].
Qed.

(** A non-empty [url] wins over the other modes: [urls] and [waitForAll]
    play no part in the render, and the one query asked of the engine is the
    single-url query. *)
Theorem Fetch_url_precedence (engine : Engine) (u : string)
    (us : option (list string)) (m : option Method) (ps : option Params)
    (b : JS.Value) (qo : option UseQueryOptions) (lc : option React.Node)
    (ec : option React.ErrorView) (w : option bool) :
  u <> "" ->
  Fetch engine (mkProps (Some u) us m ps b qo lc ec w)
  = Fetch engine (mkProps (Some u) None m ps b qo lc ec None)
  /\ exists r,
       r = useQuery engine
             (singleQuery u (match m with Some x => x | None => GET end)
                ps b qo)
       /\ Fetch engine (mkProps (Some u) us m ps b qo lc ec w)
          = JS.Returned
              (present (match ec with Some c => c | None => DefaultError end)
                       (match lc with Some n => n | None => defaultLoading end)
                       (error r) (isLoading r) (data r)).
Proof.
  intro Hu. unfold Fetch. cbn [url]. rewrite (truthyUrl_nonempty u Hu).
  split; [reflexivity|]. eexists. split; reflexivity.
Qed.

Lemma Fetch_url_precedence_witness :
  Fetch echoEngine
    (mkProps (Some "/api/users") (Some ["/api/posts"]) None None JS.Undefined
       None None None (Some true))
  = Fetch echoEngine
      (mkProps (Some "/api/users") None None None JS.Undefined
         None None None None).
Proof.
  apply (Fetch_url_precedence echoEngine "/api/users" (Some ["/api/posts"])
           None None JS.Undefined None None None (Some true)).
  discriminate.
Defined.

(** With an empty [urls] array (and an engine that answers no query with
    no result) the two wait policies part: without [waitForAll] the render
    is the loading view, as [every] holds of no slots, and stays so since
    there is no slot to settle; with [waitForAll] the callback is called at
    once with the empty array. *)
Theorem Fetch_empty_urls (engine : Engine) (m : option Method)
    (ps : option Params) (b : JS.Value) (qo : option UseQueryOptions)
    (ec : option React.ErrorView) :
  useQueries engine [] = [] ->
  Fetch engine (mkProps None (Some []) m ps b qo None ec None)
  = JS.Returned (React.Returns defaultLoading)
  /\ Fetch engine (mkProps None (Some []) m ps b qo None ec (Some false))
     = JS.Returned (React.Returns defaultLoading)
  /\ Fetch engine (mkProps None (Some []) m ps b qo None ec (Some true))
     = JS.Returned (React.Children (JS.Arr [])).
Proof.
  intro H. unfold Fetch. cbn [url urls truthyUrl multiQueries map].
  rewrite H. repeat split.
Qed.

Lemma Fetch_empty_urls_witness :
  Fetch pendingEngine
    (mkProps None (Some []) None None JS.Undefined None None None None)
  = JS.Returned (React.Returns defaultLoading)
  /\ Fetch pendingEngine
       (mkProps None (Some []) None None JS.Undefined None None None
          (Some false))
     = JS.Returned (React.Returns defaultLoading)
  /\ Fetch pendingEngine
       (mkProps None (Some []) None None JS.Undefined None None None
          (Some true))
     = JS.Returned (React.Children (JS.Arr [])).
Proof.
  apply (Fetch_empty_urls pendingEngine None None JS.Undefined None None).
  reflexivity.
Defined.

(** ** The aggregate *)

Lemma every_some (results : list QueryResult) :
  results <> [] ->
  aggregateIsLoading false results = true ->
  aggregateIsLoading true results = true.
Proof.
  intros Hne H. destruct results as [|r rest]; [contradiction|].
  apply aggregateIsLoading_any. exists r. split; [now left|].
  apply (proj1 (aggregateIsLoading_every _) H). now left.
Qed.

Lemma present_returns (ec : React.ErrorView) (lc : React.Node)
    (err : option JS.Error) (isL : bool) (d : JS.Value) (node : React.Node) :
  present ec lc err isL d = React.Returns node ->
  err = None /\ isL = true /\ React.truthy lc = true /\ node = lc.
Proof.
  unfold present. destruct err as [e|].
  - intro H. pose proof (renderError_branch ec e) as Hb.
    rewrite H in Hb. discriminate Hb.
  - destruct isL; simpl; [|discriminate].
    destruct (React.truthy lc); [|discriminate].
    intro H. injection H as <-. auto.
Qed.

Lemma present_children (ec : React.ErrorView) (lc : React.Node)
    (err : option JS.Error) (isL : bool) (d d' : JS.Value) :
  present ec lc err isL d = React.Children d' ->
  err = None /\ (isL = false \/ React.truthy lc = false) /\ d' = d.
Proof.
  unfold present. destruct err as [e|].
  - intro H. pose proof (renderError_branch ec e) as Hb.
    rewrite H in Hb. discriminate Hb.
  - destruct isL; simpl.
    + destruct (React.truthy lc); [discriminate|].
      intro H. injection H as <-. auto.
    + intro H. injection H as <-. auto.
Qed.

(** With at least one slot, waiting for all never ends the loading view
    sooner: whenever the default policy renders the loading view, so does
    [waitForAll]. *)
Theorem waitForAll_keeps_loading (ec : React.ErrorView) (lc : React.Node)
    (results : list QueryResult) (node : React.Node) :
  results <> [] ->
  aggregate ec lc false results = React.Returns node ->
  aggregate ec lc true results = React.Returns node.
Proof.
  intros Hne H. unfold aggregate in *.
  apply present_returns in H as (Herr & Hl & Hlc & ->).
  unfold present. rewrite Herr, (every_some results Hne Hl), Hlc. reflexivity.
Qed.

Lemma waitForAll_keeps_loading_witness :
  aggregate DefaultError defaultLoading true
    [observe Loading; observe Loading]
  = React.Returns defaultLoading.
Proof.
  apply (waitForAll_keeps_loading DefaultError defaultLoading
           [observe Loading; observe Loading] defaultLoading).
  - discriminate.
  - reflexivity.
Defined.

(** The aggregate renders the error view exactly when some slot carries an
    error: an error is never invented, and never hidden behind the loading
    view or the callback. *)
Theorem aggregate_error_iff (ec : React.ErrorView) (lc : React.Node)
    (w : bool) (results : list QueryResult) :
  branchOf (aggregate ec lc w results) = ErrorBranch
  <-> exists r, In r results /\ error r <> None.
Proof.
  split.
  - intro H. unfold aggregate, present in H.
    destruct (firstError results) as [e|] eqn:He.
    + unfold firstError in He.
      destruct (find _ results) as [r|] eqn:Hf; [|discriminate He].
      apply find_some in Hf as [Hin _]. exists r. split; [exact Hin|].
      rewrite He. discriminate.
    + destruct (aggregateIsLoading w results && React.truthy lc);
        discriminate H.
  - intro H.
    destruct (aggregate_error_general ec lc w results H)
      as (pre & r & e & post & _ & _ & _ & ->).
    apply renderError_branch.
Qed.

(** Under [waitForAll], with a loading view, the callback is called only
    when every slot has succeeded, and then with the payloads in slot
    order: no placeholder reaches it. *)
Theorem waitForAll_children_complete (ec : React.ErrorView) (lc : React.Node)
    (states : list FetchState) (d : JS.Value) :
  React.truthy lc = true ->
  aggregate ec lc true (map observe states) = React.Children d ->
  exists payloads, states = map Succeeded payloads /\ d = JS.Arr payloads.
Proof.
  intros Hlc H. unfold aggregate in H.
  apply present_children in H as (Herr & Hl & ->).
  destruct Hl as [Hl|Hl]; [|rewrite Hlc in Hl; discriminate Hl].
  assert (Hall : forall st, In st states -> exists p, st = Succeeded p).
  { intros st Hin. destruct st as [|e|p].
    - exfalso.
      assert (Ht : aggregateIsLoading true (map observe states) = true).
      { apply aggregateIsLoading_any. exists (observe Loading).
        split; [now apply in_map|reflexivity]. }
      rewrite Hl in Ht. discriminate Ht.
    - exfalso.
      destruct (firstError_split (map observe states))
        as (_ & _ & e' & _ & _ & _ & _ & He').
      { exists (observe (Failed e)). split; [now apply in_map|discriminate]. }
      rewrite Herr in He'. discriminate He'.
    - now exists p. }
  clear Herr Hl. induction states as [|st states IH].
  - exists []. split; reflexivity.
  - destruct (Hall st (or_introl eq_refl)) as [p ->].
    destruct IH as (payloads & -> & Hd).
    { intros st' Hin. apply Hall. now right. }
    exists (p :: payloads). split; [reflexivity|].
    simpl. injection Hd as Hd. now rewrite Hd.
Qed.

Lemma waitForAll_children_complete_witness :
  exists payloads,
    [Succeeded (JS.Num 1); Succeeded (JS.Str "b")] = map Succeeded payloads
    /\ JS.Arr [JS.Num 1; JS.Str "b"] = JS.Arr payloads.
Proof.
  apply (waitForAll_children_complete DefaultError defaultLoading
           [Succeeded (JS.Num 1); Succeeded (JS.Str "b")]
           (JS.Arr [JS.Num 1; JS.Str "b"])); reflexivity.
Defined.

(** Once every slot has succeeded, and there is at least one, the callback
    gets all the payloads in slot order under either wait policy and with
    any loading view. *)
Theorem aggregate_all_succeeded (ec : React.ErrorView) (lc : React.Node)
    (w : bool) (payloads : list JS.Value) :
  payloads <> [] ->
  aggregate ec lc w (map observe (map Succeeded payloads))
  = React.Children (JS.Arr payloads).
Proof.
  intro Hne. rewrite aggregate_success_general.
  - rewrite !map_map. simpl. now rewrite map_id.
  - intros r Hin. rewrite map_map in Hin.
    apply in_map_iff in Hin as (p & <- & _). reflexivity.
  - destruct payloads as [|p rest]; [contradiction|].
    destruct w; simpl.
    + unfold aggregateIsLoading. rewrite map_map. simpl.
      induction rest as [|q rest IH]; [reflexivity|]. simpl. apply IH.
      discriminate.
    + reflexivity.
Qed.

Lemma aggregate_all_succeeded_witness :
  aggregate DefaultError defaultLoading false
    (map observe (map Succeeded [JS.Num 1; JS.Num 2]))
  = React.Children (JS.Arr [JS.Num 1; JS.Num 2]).
Proof.
  apply (aggregate_all_succeeded DefaultError defaultLoading false
           [JS.Num 1; JS.Num 2]).
  discriminate.
Defined.

(** ** The queries of the several-urls mode *)

Lemma NoDup_map_injective {A B : Type} (f : A -> B) (l : list A) :
  (forall x y, f x = f y -> x = y) -> NoDup l -> NoDup (map f l).
Proof.
  intros Hinj H. induction H as [|x l Hx Hl IH]; simpl; constructor; auto.
  intro Hin. apply in_map_iff in Hin as (y & Hy & Hin).
  apply Hinj in Hy. subst y. contradiction.
Qed.

(** The slots of the several-urls mode have pairwise different cache keys
    exactly when the urls are pairwise different: a repeated url shares one
    cache entry, two different urls never do. *)
Theorem multiQueries_keys_distinct (urls : list string) (m : Method)
    (ps : option Params) (b : JS.Value) (qo : option UseQueryOptions) :
  NoDup (map queryKey (multiQueries urls m ps b qo)) <-> NoDup urls.
Proof.
  rewrite multiQueries_keys. split.
  - apply NoDup_map_inv.
  - apply NoDup_map_injective. intros x y H.
    assert (Hk : derivedKey x m ps b = derivedKey y m ps b) by congruence.
    now apply derivedKey_injective in Hk.
Qed.

(** Unless the query options carry a key of their own, the query of the
    single-url mode for a url is one of the queries the several-urls mode
    asks for a list holding that url, key and request alike: the two modes
    share the cache entry of a url. *)
Theorem singleQuery_among_multiQueries (u : string) (urls : list string)
    (m : Method) (ps : option Params) (b : JS.Value)
    (qo : option UseQueryOptions) :
  match qo with Some o => queryKey o = None | None => True end ->
  In u urls ->
  In (singleQuery u m ps b qo) (multiQueries urls m ps b qo).
Proof.
  intros Hkey Hin. unfold multiQueries. apply in_map_iff. exists u.
  split; [|exact Hin]. unfold singleQuery, explicitKeyOr.
  destruct qo as [o|]; [|reflexivity]. now rewrite Hkey.
Qed.

Lemma singleQuery_among_multiQueries_witness :
  In (singleQuery "/api/posts" GET None JS.Undefined None)
     (multiQueries ["/api/users"; "/api/posts"] GET None JS.Undefined None).
Proof.
  apply (singleQuery_among_multiQueries "/api/posts"
           ["/api/users"; "/api/posts"] GET None JS.Undefined None).
  - exact I.
  - simpl. right. left. reflexivity.
Defined.

(** In the several-urls mode, with an engine that answers each query with
    one result, the array handed to the callback has one entry for each
    url, whatever the slots hold. *)
Theorem Fetch_children_array_length (engine : Engine) (us : list string)
    (m : option Method) (ps : option Params) (b : JS.Value)
    (qo : option UseQueryOptions) (lc : option React.Node)
    (ec : option React.ErrorView) (w : option bool) (d : JS.Value) :
  (forall qs, List.length (useQueries engine qs) = List.length qs) ->
  Fetch engine (mkProps None (Some us) m ps b qo lc ec w)
  = JS.Returned (React.Children d) ->
  exists items, d = JS.Arr items /\ List.length items = List.length us.
Proof.
  intros Hlen H. unfold Fetch in H. cbn [url urls truthyUrl] in H.
  injection H as H. unfold aggregate in H.
  apply present_children in H as (_ & _ & ->).
  eexists. split; [reflexivity|].
  rewrite length_map, Hlen. unfold multiQueries. apply length_map.
Qed.

Lemma Fetch_children_array_length_witness :
  exists items,
    JS.Arr [JS.Arr [JS.Str "/a"; JS.Str "GET"; JS.Undefined; JS.Undefined];
            JS.Arr [JS.Str "/b"; JS.Str "GET"; JS.Undefined; JS.Undefined]]
    = JS.Arr items
    /\ List.length items = List.length ["/a"; "/b"].
Proof.
  apply (Fetch_children_array_length echoEngine ["/a"; "/b"] None None
           JS.Undefined None None None None).
  - intro qs. simpl. apply length_map.
  - reflexivity.
Defined.

(** With a [url] or with [urls], the function of every query is the
    component's own request for that url, with the method, parameters and
    body of the props, and the remaining options are those of
    [queryOptions]: a [queryFn] given there never runs. *)
Theorem queries_run_the_request (m : Method) (ps : option Params)
    (b : JS.Value) (qo : option UseQueryOptions) :
  (forall u,
     queryFn (singleQuery u m ps b qo)
     = Some (RequestFn u (methodName m) ps b)
     /\ otherOptions (singleQuery u m ps b qo)
        = match qo with Some o => otherOptions o | None => [] end)
  /\ (forall urls,
        map queryFn (multiQueries urls m ps b qo)
        = map (fun u => Some (RequestFn u (methodName m) ps b)) urls
        /\ forall q, In q (multiQueries urls m ps b qo) ->
             otherOptions q
             = match qo with Some o => otherOptions o | None => [] end).
Proof.
  split; [intro u; split; reflexivity|].
  intro urls. split.
  - unfold multiQueries. rewrite map_map. reflexivity.
  - intros q Hin. unfold multiQueries in Hin.
    apply in_map_iff in Hin as (u & <- & _). reflexivity.
Qed.

(** ** The order of the slots *)

Lemma existsb_permutation {A : Type} (f : A -> bool) (l l' : list A) :
  Permutation l l' -> existsb f l = existsb f l'.
Proof.
  intro H. induction H; simpl.
  - reflexivity.
  - now rewrite IHPermutation.
  - destruct (f x), (f y); reflexivity.
  - congruence.
Qed.

Lemma forallb_permutation {A : Type} (f : A -> bool) (l l' : list A) :
  Permutation l l' -> forallb f l = forallb f l'.
Proof.
  intro H. induction H; simpl.
  - reflexivity.
  - now rewrite IHPermutation.
  - destruct (f x), (f y); reflexivity.
  - congruence.
Qed.

Lemma firstError_some_iff (results : list QueryResult) :
  firstError results <> None
  <-> existsb (fun r => match error r with Some _ => true | None => false end)
              results = true.
Proof.
  unfold firstError. rewrite existsb_exists. split.
  - destruct (find _ results) as [r|] eqn:Hf; [|intro H; now contradiction H].
    intros _. apply find_some in Hf as [Hin Hr]. exists r. auto.
  - intros (r & Hin & Hr).
    destruct (find _ results) as [r'|] eqn:Hf.
    + apply find_some in Hf as [_ Hr']. destruct (error r'); [discriminate|].
      discriminate Hr'.
    + pose proof (find_none _ _ Hf r Hin) as Hn. simpl in Hn.
      rewrite Hr in Hn. discriminate Hn.
Qed.

(** Which of the three views the aggregate renders does not depend on the
    order of the slots, under either wait policy; the order only decides
    which error is shown and how the data is arranged. *)
Theorem aggregate_branch_permutation (ec : React.ErrorView) (lc : React.Node)
    (w : bool) (results results' : list QueryResult) :
  Permutation results results' ->
  branchOf (aggregate ec lc w results) = branchOf (aggregate ec lc w results').
Proof.
  intro Hperm.
  assert (Hb : forall rs,
             branchOf (aggregate ec lc w rs)
             = if existsb (fun r => match error r with
                                    | Some _ => true
                                    | None => false
                                    end) rs
               then ErrorBranch
               else if aggregateIsLoading w rs && React.truthy lc
                    then LoadingBranch else SuccessBranch).
  { intro rs. unfold aggregate, present.
    pose proof (firstError_some_iff rs) as Hiff.
    destruct (firstError rs) as [e|].
    - rewrite (proj1 Hiff) by discriminate. apply renderError_branch.
    - destruct (existsb _ rs).
      + exfalso. now apply (proj2 Hiff).
      + destruct (aggregateIsLoading w rs && React.truthy lc); reflexivity. }
  rewrite !Hb.
  rewrite (existsb_permutation _ _ _ Hperm).
  replace (aggregateIsLoading w results') with (aggregateIsLoading w results);
    [reflexivity|].
  unfold aggregateIsLoading. destruct w.
  - now apply existsb_permutation.
  - now apply forallb_permutation.
Qed.

Lemma aggregate_branch_permutation_witness :
  branchOf (aggregate DefaultError defaultLoading false
              [observe Loading; observe (Failed (JS.newError "boom"))])
  = branchOf (aggregate DefaultError defaultLoading false
                [observe (Failed (JS.newError "boom")); observe Loading]).
Proof.
  apply (aggregate_branch_permutation DefaultError defaultLoading false
           [observe Loading; observe (Failed (JS.newError "boom"))]
           [observe (Failed (JS.newError "boom")); observe Loading]).
  apply perm_swap.
Defined.
